(** * Client roster dashboard: CSV import, CSV export and the roster store

    A shallow embedding of the logic of
    - [src/components/ImportModal.tsx] ([EXPECTED_HEADERS],
      [findMatchingHeader], the [complete] callback of [parseCSV],
      [handleImport]),
    - [App.tsx] ([handleStatusChange], [handleUnitsChange],
      [handleAddClient], [handleImportClients], [handleDeleteClient],
      [handleExport]),
    - [types.ts] ([Client], [CLIENT_STATUSES]),
    - [src/components/ClientTable.tsx] (the [onChange] handler of the units
      input, [filteredClients], the comparison function of [sortedClients],
      [handleSort]),
    - [src/components/AddClientModal.tsx] (the form state, its [onChange]
      handlers, [handleSubmit]),
    followed by the properties of the specification that concern them and
    by further properties of the code.

    Conventions of the embedding.
    - A JavaScript string is a sequence of UTF-16 code units.  The embedding
      covers the strings whose code units are all below 256; such a code unit
      is an [ascii] and the string a [string].
    - A JavaScript number that holds an integer is a [Z]; [NaN] is [None]
      where a function can produce it.
    - A CSV row ([CSVRow], an object used as a map from column keys to cell
      texts) is the list of its entries in [Object.keys] order.
    - React state is passed explicitly: a handler takes the current roster
      and returns the roster handed to [setClients].
    - The platform ([Date], [crypto.randomUUID]) is a parameter. *)

From Stdlib Require Import ZArith List Bool Lia.
From Stdlib Require Import Strings.Ascii Strings.String.
From Stdlib Require Import Numbers.DecimalString Numbers.DecimalPos Numbers.DecimalZ.
Import ListNotations.

Local Open Scope string_scope.
Local Open Scope Z_scope.

(* ================================================================== *)
(** ** JavaScript built-ins used by the program *)
(* ================================================================== *)

Module JS.

Definition codeUnit (c : ascii) : N := N_of_ascii c.

(** [WhiteSpace] and [LineTerminator] code units below 256: TAB, LF, VT, FF,
    CR, SP and NBSP.  The same set is matched by the regular expression
    class [\s] and stripped by [String.prototype.trim] and [parseInt]. *)
Definition isWhiteSpace (c : ascii) : bool :=
  let n := codeUnit c in
  (((9 <=? n) && (n <=? 13)) || (n =? 32) || (n =? 160))%N.

(** [String.prototype.toLowerCase] on one code unit below 256: [A-Z] and the
    Latin-1 capitals U+00C0..U+00DE (U+00D7, the multiplication sign, apart)
    move up by 32; everything else is left alone.  On these code units the
    built-in maps each unit by itself; outside them it does not (it is
    sensitive to context for the Greek capital sigma), and the embedding
    does not cover such strings. *)
Definition toLowerChar (c : ascii) : ascii :=
  let n := codeUnit c in
  if (((65 <=? n) && (n <=? 90)) || ((192 <=? n) && (n <=? 214))
      || ((216 <=? n) && (n <=? 222)))%N
  then ascii_of_N (n + 32) else c.

Fixpoint toLowerCase (s : string) : string :=
  match s with
  | EmptyString => EmptyString
  | String c r => String (toLowerChar c) (toLowerCase r)
  end.

(** [s.replace(/\s+/g, '')]: every maximal run of white space is replaced by
    the empty string, that is, every white-space code unit is dropped. *)
Fixpoint stripWhiteSpace (s : string) : string :=
  match s with
  | EmptyString => EmptyString
  | String c r =>
      if isWhiteSpace c then stripWhiteSpace r else String c (stripWhiteSpace r)
  end.

Fixpoint trimStart (s : string) : string :=
  match s with
  | EmptyString => EmptyString
  | String c r => if isWhiteSpace c then trimStart r else s
  end.

Fixpoint trimEnd (s : string) : string :=
  match s with
  | EmptyString => EmptyString
  | String c r =>
      let r' := trimEnd r in
      match r' with
      | EmptyString => if isWhiteSpace c then EmptyString else String c EmptyString
      | _ => String c r'
      end
  end.

(** [String.prototype.trim]. *)
Definition trim (s : string) : string := trimEnd (trimStart s).

(** [Array.prototype.join] on an array of strings. *)
Fixpoint join (sep : string) (l : list string) : string :=
  match l with
  | [] => ""
  | [x] => x
  | x :: r => x ++ sep ++ join sep r
  end.

(** [Array.prototype.includes] on an array of strings ([SameValueZero] on
    strings is equality of the code-unit sequences). *)
Definition includes (l : list string) (x : string) : bool :=
  existsb (String.eqb x) l.

(** [Array.prototype.find]. *)
Definition find {A : Type} (p : A -> bool) (l : list A) : option A :=
  List.find p l.

(** Value of a code unit as a digit in radix 10 or 16 ([parseInt] is only
    ever called without a radix argument, so no other radix arises). *)
Definition digitValue (radix : Z) (c : ascii) : option Z :=
  let n := Z.of_N (codeUnit c) in
  if (48 <=? n) && (n <=? 57) then Some (n - 48)
  else if (radix =? 16) && (97 <=? n) && (n <=? 102) then Some (n - 87)
  else if (radix =? 16) && (65 <=? n) && (n <=? 70) then Some (n - 55)
  else None.

(** The longest prefix of radix digits, read as a number; [acc] is [None]
    until the first digit has been seen. *)
Fixpoint parseDigits (radix : Z) (s : string) (acc : option Z) : option Z :=
  match s with
  | EmptyString => acc
  | String c r =>
      match digitValue radix c with
      | Some d =>
          parseDigits radix r
            (Some (radix * match acc with Some a => a | None => 0 end + d))
      | None => acc
      end
  end.

(** [parseInt(string)] with no radix: leading white space is skipped, one
    sign is read, a [0x]/[0X] prefix selects radix 16 (radix 10 otherwise),
    the longest prefix of digits is converted and whatever follows is
    ignored; without any digit the result is [NaN] ([None]).

    The result is the mathematical integer.  The program uses it in two
    ways: it compares it with 0 and 960, and stores it when it lies in
    between.  Rounding to a double is monotone and exact up to 2^53, so both
    agree with the mathematical integer; [-0] is [0]. *)
Definition parseInt (s : string) : option Z :=
  let s0 := trimStart s in
  let '(sign, s1) :=
    match s0 with
    | String "-" r => (-1, r)
    | String "+" r => (1, r)
    | _ => (1, s0)
    end in
  let '(radix, s2) :=
    match s1 with
    | String "0" (String "x" r) => (16, r)
    | String "0" (String "X" r) => (16, r)
    | _ => (10, s1)
    end in
  match parseDigits radix s2 None with
  | Some m => Some (sign * m)
  | None => None
  end.

(** [Number::toString] of an integer (of magnitude below 10^21, where
    JavaScript prints plain decimal digits). *)
Definition numberToString (z : Z) : string :=
  NilEmpty.string_of_int (Z.to_int z).

(** Truthiness of a value that is a string or [undefined]: [undefined] and
    the empty string are falsy. *)
Definition truthy (v : option string) : bool :=
  match v with
  | None => false
  | Some s => negb (s =? "")%string
  end.

(** [s.startsWith(p)], the test behind [includes] at one position. *)
Fixpoint isPrefix (p s : string) : bool :=
  match p, s with
  | EmptyString, _ => true
  | String _ _, EmptyString => false
  | String a p', String b s' => Ascii.eqb a b && isPrefix p' s'
  end.

(** [String.prototype.includes]: the search string occurs at some position
    of [s]. *)
Fixpoint stringIncludes (s search : string) : bool :=
  isPrefix search s ||
  match s with
  | EmptyString => false
  | String _ r => stringIncludes r search
  end.

(** [a > b] and [a < b] on two strings: the order of the code-unit
    sequences. *)
Definition stringGt (a b : string) : bool :=
  match String.compare a b with
  | Gt => true
  | _ => false
  end.

Definition stringLt (a b : string) : bool :=
  match String.compare a b with
  | Lt => true
  | _ => false
  end.

(** [s.split(sep)[0]] for a separator of one code unit: the text before its
    first occurrence, all of [s] when there is none. *)
Fixpoint splitFirst (sep : ascii) (s : string) : string :=
  match s with
  | EmptyString => EmptyString
  | String c r =>
      if Ascii.eqb c sep then EmptyString else String c (splitFirst sep r)
  end.

End JS.

(* ================================================================== *)
(** ** types.ts *)
(* ================================================================== *)

(** [ClientStatus] is a union of string literals; at run time a status is a
    string, and both the CSV importer and the status dropdown store a string
    under a type assertion ([as ClientStatus]). *)
Definition ClientStatus : Type := string.

Record Client : Type := mkClient {
  id : string;
  name : string;
  clinician : string;
  assignedDate : string;
  unitsUsed : Z;
  status : ClientStatus;
  lastUpdated : string
}.

Definition CLIENT_STATUSES : list ClientStatus :=
  [ "New Authorization";
    "Current Authorization";
    "Current Authorization (New LBS)";
    "Newly Assigned";
    "Client Hospitalized";
    "Frequent Caregiver Cancellations" ].

(* ================================================================== *)
(** ** The platform *)
(* ================================================================== *)

(** What the program takes from its host.  [Time] is the time value of a
    valid [Date] object.  [randomUUID i] and [now i] are the results of
    [crypto.randomUUID()] and [new Date()] when evaluated while the element
    at index [i] of the array being traversed is visited (each visit
    evaluates them at most once). *)
Class Platform : Type := {
  Time : Type;
  (** [new Date(s)]; [None] when [getTime()] of the result is [NaN]. *)
  parseDate : string -> option Time;
  toISOString : Time -> string;
  toLocaleDateString : Time -> string;
  randomUUID : nat -> string;
  now : nat -> Time
}.

(* ================================================================== *)
(** ** src/components/ImportModal.tsx *)
(* ================================================================== *)

Module ImportModal.
Import JS.

(** [interface CSVRow { [key: string]: string }], entries in key order. *)
Definition CSVRow : Type := list (string * string).

(** [Object.keys(row)]. *)
Definition keys (row : CSVRow) : list string := map fst row.

(** [row[key]]; [undefined] is [None]. *)
Fixpoint get (row : CSVRow) (key : string) : option string :=
  match row with
  | [] => None
  | (k, v) :: r => if (k =? key)%string then Some v else get r key
  end.

Module EXPECTED_HEADERS.
Definition name : list string :=
  ["name"; "client name"; "clientname"; "client"].
Definition clinician : list string :=
  ["clinician"; "assigned clinician"; "assignedclinician"].
Definition assignedDate : list string :=
  ["assigned date"; "assigneddate"; "date"; "assignment date"].
Definition unitsUsed : list string :=
  ["units"; "units used"; "unitsused"].
Definition status : list string :=
  ["status"; "client status"].
End EXPECTED_HEADERS.

(** The five properties of [EXPECTED_HEADERS]. *)
Inductive LogicalField : Type :=
  | FName | FClinician | FAssignedDate | FUnitsUsed | FStatus.

Definition expectedHeaders (f : LogicalField) : list string :=
  match f with
  | FName => EXPECTED_HEADERS.name
  | FClinician => EXPECTED_HEADERS.clinician
  | FAssignedDate => EXPECTED_HEADERS.assignedDate
  | FUnitsUsed => EXPECTED_HEADERS.unitsUsed
  | FStatus => EXPECTED_HEADERS.status
  end.

Definition allFields : list LogicalField :=
  [FName; FClinician; FAssignedDate; FUnitsUsed; FStatus].

(** The test applied to each key by [findMatchingHeader]. *)
Definition keyMatches (headers : list string) (key : string) : bool :=
  let headerLower := map toLowerCase headers in
  includes headerLower (stripWhiteSpace (toLowerCase key)).

Definition findMatchingHeader (headers : list string) (row : CSVRow)
  : option string :=
  find (keyMatches headers) (keys row).

(** The five kinds of message pushed onto [errors]. *)
Inductive ErrorKind : Type :=
  | MissingColumns | MissingFields | InvalidUnits | InvalidStatus | InvalidDate.

Definition newline : string := String "010"%char EmptyString.

Definition natToString (n : nat) : string :=
  NilEmpty.string_of_uint (Nat.to_uint n).

(** The template literals of the five [errors.push] calls. *)
Definition errorMessage (index : nat) (k : ErrorKind) : string :=
  "Row " ++ natToString (index + 1) ++
  match k with
  | MissingColumns =>
      ": Missing or invalid column headers. Required columns: Name, Assigned Clinician, Assigned Date, Units Used, Status"
  | MissingFields => ": Missing required fields"
  | InvalidUnits => ": Invalid units (must be between 0-960)"
  | InvalidStatus =>
      ": Invalid status. Must be one of: " ++ join ", " CLIENT_STATUSES
  | InvalidDate => ": Invalid date format. Use YYYY-MM-DD or MM/DD/YYYY"
  end.

(** [row[header]?.trim()].  The callback evaluates it only after it has
    found every header truthy; for an [undefined] header the value is
    [undefined] here. *)
Definition cell (row : CSVRow) (header : option string) : option string :=
  match header with
  | Some k => option_map trim (get row k)
  | None => None
  end.

(** [ToString] of a value that is a string or [undefined]. *)
Definition toString (v : option string) : string :=
  match v with
  | Some s => s
  | None => "undefined"
  end.

Section WithPlatform.
Context {P : Platform}.

(** The values a row contributes to the [Client] pushed for it. *)
Record Fields : Type := mkFields {
  f_name : string;
  f_clinician : string;
  f_date : Time;
  f_units : Z;
  f_status : string
}.

(** The body of the [forEach] callback up to its [push]: the kind of the
    error pushed for the row, or the values of the client pushed. *)
Definition validateRow (row : CSVRow) : ErrorKind + Fields :=
  let nameHeader := findMatchingHeader EXPECTED_HEADERS.name row in
  let clinicianHeader := findMatchingHeader EXPECTED_HEADERS.clinician row in
  let dateHeader := findMatchingHeader EXPECTED_HEADERS.assignedDate row in
  let unitsHeader := findMatchingHeader EXPECTED_HEADERS.unitsUsed row in
  let statusHeader := findMatchingHeader EXPECTED_HEADERS.status row in
  if negb (truthy nameHeader) || negb (truthy clinicianHeader)
     || negb (truthy dateHeader) || negb (truthy unitsHeader)
     || negb (truthy statusHeader)
  then inl MissingColumns
  else
    let name := cell row nameHeader in
    let clinician := cell row clinicianHeader in
    let assignedDate := cell row dateHeader in
    let unitsUsed := cell row unitsHeader in
    let status := cell row statusHeader in
    if negb (truthy name) || negb (truthy clinician)
       || negb (truthy assignedDate) || negb (truthy unitsUsed)
       || negb (truthy status)
    then inl MissingFields
    else
      match parseInt (toString unitsUsed) with
      | None => inl InvalidUnits
      | Some units =>
          if (units <? 0) || (units >? 960) then inl InvalidUnits
          else if negb (includes CLIENT_STATUSES (toString status))
          then inl InvalidStatus
          else
            match parseDate (toString assignedDate) with
            | None => inl InvalidDate
            | Some date =>
                inr (mkFields (toString name) (toString clinician) date
                       units (toString status))
            end
      end.

(** The object literal pushed onto [parsedClients] for row [index]. *)
Definition newClient (index : nat) (f : Fields) : Client :=
  {| id := randomUUID index;
     name := f_name f;
     clinician := f_clinician f;
     assignedDate := toISOString (f_date f);
     unitsUsed := f_units f;
     status := f_status f;
     lastUpdated := toISOString (now index) |}.

(** [results.data.forEach((row, index) => ...)] from [index] on, over the
    pair of arrays [(parsedClients, errors)]. *)
Fixpoint forEachRow (data : list CSVRow) (index : nat)
    (acc : list Client * list string) : list Client * list string :=
  match data with
  | [] => acc
  | row :: rest =>
      let '(parsedClients, errors) := acc in
      forEachRow rest (S index)
        match validateRow row with
        | inl k => (parsedClients, (errors ++ [errorMessage index k])%list)
        | inr f => ((parsedClients ++ [newClient index f])%list, errors)
        end
  end.

(** The two pieces of component state written by the importer. *)
Record ImportState : Type := mkImportState {
  preview : list Client;
  error : string
}.

(** The [complete] callback of [parseCSV], applied to [results.data]. *)
Definition parseCSV (data : list CSVRow) : ImportState :=
  let '(parsedClients, errors) := forEachRow data 0 ([], []) in
  if (0 <? List.length errors)%nat
  then {| preview := []; error := join newline errors |}
  else {| preview := parsedClients; error := "" |}.

End WithPlatform.

(** [handleImport]: the Import button.  [onImport] is the callback prop,
    acting on the state of the parent; [onClose] and [setFile] touch only
    the dialog and are left out. *)
Definition handleImport {R : Type} (onImport : list Client -> R -> R)
    (st : ImportState) (parent : R) : ImportState * R :=
  if (0 <? List.length (preview st))%nat
  then ({| preview := []; error := "" |}, onImport (preview st) parent)
  else (st, parent).

End ImportModal.

(* ================================================================== *)
(** ** src/components/ClientTable.tsx *)
(* ================================================================== *)

Module ClientTable.
Import JS.

(** The value handed to [onUnitsChange] by the units input:
    [Math.max(0, Math.min(960, parseInt(e.target.value) || 0))]. *)
Definition unitsInputValue (value : string) : Z :=
  let parsed :=
    match parseInt value with
    | Some n => if n =? 0 then 0 else n
    | None => 0
    end in
  Z.max 0 (Z.min 960 parsed).

(** [filteredClients], for the text in the search box. *)
Definition filteredClients (search : string) (clients : list Client)
  : list Client :=
  filter (fun client =>
            stringIncludes (toLowerCase (name client)) (toLowerCase search))
    clients.

(** [keyof Client]. *)
Inductive ClientKey : Type :=
  | KId | KName | KClinician | KAssignedDate | KUnitsUsed | KStatus
  | KLastUpdated.

Inductive SortDirection : Type := asc | desc.

(** [a[sortField] > b[sortField]] and [a[sortField] < b[sortField]]: both
    operands are strings, or both are numbers for [unitsUsed]. *)
Definition fieldGt (sortField : ClientKey) (a b : Client) : bool :=
  match sortField with
  | KId => stringGt (id a) (id b)
  | KName => stringGt (name a) (name b)
  | KClinician => stringGt (clinician a) (clinician b)
  | KAssignedDate => stringGt (assignedDate a) (assignedDate b)
  | KUnitsUsed => unitsUsed a >? unitsUsed b
  | KStatus => stringGt (status a) (status b)
  | KLastUpdated => stringGt (lastUpdated a) (lastUpdated b)
  end.

Definition fieldLt (sortField : ClientKey) (a b : Client) : bool :=
  match sortField with
  | KId => stringLt (id a) (id b)
  | KName => stringLt (name a) (name b)
  | KClinician => stringLt (clinician a) (clinician b)
  | KAssignedDate => stringLt (assignedDate a) (assignedDate b)
  | KUnitsUsed => unitsUsed a <? unitsUsed b
  | KStatus => stringLt (status a) (status b)
  | KLastUpdated => stringLt (lastUpdated a) (lastUpdated b)
  end.

(** The comparison function handed to [sort]. *)
Definition compareClients (sortField : ClientKey)
    (sortDirection : SortDirection) (a b : Client) : Z :=
  match sortDirection with
  | asc => if fieldGt sortField a b then 1 else -1
  | desc => if fieldLt sortField a b then 1 else -1
  end.

(** The two pieces of sort state, initially [name] and [asc]. *)
Record SortState : Type := mkSortState {
  sortField : ClientKey;
  sortDirection : SortDirection
}.

Definition initialSortState : SortState :=
  {| sortField := KName; sortDirection := asc |}.

Definition keyEqb (k1 k2 : ClientKey) : bool :=
  match k1, k2 with
  | KId, KId | KName, KName | KClinician, KClinician
  | KAssignedDate, KAssignedDate | KUnitsUsed, KUnitsUsed
  | KStatus, KStatus | KLastUpdated, KLastUpdated => true
  | _, _ => false
  end.

Definition handleSort (field : ClientKey) (st : SortState) : SortState :=
  if keyEqb field (sortField st)
  then {| sortField := sortField st;
          sortDirection :=
            match sortDirection st with
            | asc => desc
            | desc => asc
            end |}
  else {| sortField := field; sortDirection := asc |}.

End ClientTable.

(* ================================================================== *)
(** ** src/components/AddClientModal.tsx *)
(* ================================================================== *)

Module AddClientModal.
Import JS.

(** The form state, which is also the argument of [onSubmit]. *)
Record FormData : Type := mkFormData {
  name : string;
  clinician : string;
  assignedDate : string;
  unitsUsed : Z;
  status : ClientStatus
}.

(** The [onChange] handlers of the five inputs, each with the text of
    [e.target.value]. *)
Inductive FormEvent : Type :=
  | ChangeName (value : string)
  | ChangeClinician (value : string)
  | ChangeAssignedDate (value : string)
  | ChangeUnitsUsed (value : string)
  | ChangeStatus (value : string).

(** [setFormData({ ...formData, field: ... })].  The units input computes
    [Math.max(0, Math.min(960, parseInt(e.target.value) || 0))], the
    expression of the units input of the table. *)
Definition onChange (formData : FormData) (e : FormEvent) : FormData :=
  match e with
  | ChangeName v =>
      {| name := v; clinician := clinician formData;
         assignedDate := assignedDate formData;
         unitsUsed := unitsUsed formData; status := status formData |}
  | ChangeClinician v =>
      {| name := name formData; clinician := v;
         assignedDate := assignedDate formData;
         unitsUsed := unitsUsed formData; status := status formData |}
  | ChangeAssignedDate v =>
      {| name := name formData; clinician := clinician formData;
         assignedDate := v;
         unitsUsed := unitsUsed formData; status := status formData |}
  | ChangeUnitsUsed v =>
      {| name := name formData; clinician := clinician formData;
         assignedDate := assignedDate formData;
         unitsUsed := ClientTable.unitsInputValue v;
         status := status formData |}
  | ChangeStatus v =>
      {| name := name formData; clinician := clinician formData;
         assignedDate := assignedDate formData;
         unitsUsed := unitsUsed formData; status := v |}
  end.

Section WithPlatform.
Context {P : Platform}.

(** The initial and the reset form; [today] is the value of [new Date()]
    and [CLIENT_STATUSES[0]] the first status. *)
Definition initialFormData (today : Time) : FormData :=
  {| name := "";
     clinician := "";
     assignedDate := splitFirst "T" (toISOString today);
     unitsUsed := 0;
     status := hd "" CLIENT_STATUSES |}.

(** [handleSubmit]: the form is handed to the callback prop and reset. *)
Definition handleSubmit {R : Type} (onSubmit : FormData -> R -> R)
    (formData : FormData) (today : Time) (parent : R) : FormData * R :=
  (initialFormData today, onSubmit formData parent).

End WithPlatform.

End AddClientModal.

(* ================================================================== *)
(** ** App.tsx *)
(* ================================================================== *)

Module App.
Import JS.

(** [Array.prototype.map] with the index passed along. *)
Fixpoint mapFrom {A B : Type} (f : nat -> A -> B) (i : nat) (l : list A)
  : list B :=
  match l with
  | [] => []
  | x :: r => f i x :: mapFrom f (S i) r
  end.

Section WithPlatform.
Context {P : Platform}.

Definition handleStatusChange (id0 : string) (status0 : ClientStatus)
    (clients : list Client) : list Client :=
  mapFrom (fun i client =>
    if (id client =? id0)%string
    then {| id := id client;
            name := name client;
            clinician := clinician client;
            assignedDate := assignedDate client;
            unitsUsed := unitsUsed client;
            status := status0;
            lastUpdated := toISOString (now i) |}
    else client) 0 clients.

Definition handleUnitsChange (id0 : string) (units : Z)
    (clients : list Client) : list Client :=
  mapFrom (fun i client =>
    if (id client =? id0)%string
    then {| id := id client;
            name := name client;
            clinician := clinician client;
            assignedDate := assignedDate client;
            unitsUsed := units;
            status := status client;
            lastUpdated := toISOString (now i) |}
    else client) 0 clients.

(** [handleAddClient]; [newId] and [stamp] are the values of
    [crypto.randomUUID()] and [new Date()] of the call. *)
Definition handleAddClient (newId : string) (stamp : Time)
    (data : AddClientModal.FormData) (clients : list Client) : list Client :=
  (clients ++
   [ {| id := newId;
        name := AddClientModal.name data;
        clinician := AddClientModal.clinician data;
        assignedDate := AddClientModal.assignedDate data;
        unitsUsed := AddClientModal.unitsUsed data;
        status := AddClientModal.status data;
        lastUpdated := toISOString stamp |} ])%list.

Definition handleImportClients (importedClients clients : list Client)
  : list Client :=
  (clients ++ importedClients)%list.

Definition handleDeleteClient (id0 : string) (clients : list Client)
  : list Client :=
  filter (fun client => negb (id client =? id0)%string) clients.

(** [new Date(s).toLocaleDateString()]. *)
Definition localeDate (s : string) : string :=
  match parseDate s with
  | Some t => toLocaleDateString t
  | None => "Invalid Date"
  end.

Definition exportHeader : list string :=
  ["Name"; "Assigned Clinician"; "Assigned Date"; "Units Used"; "Status";
   "Last Updated"].

Definition exportRow (client : Client) : list string :=
  [ name client;
    clinician client;
    localeDate (assignedDate client);
    numberToString (unitsUsed client);
    status client;
    localeDate (lastUpdated client) ].

(** [csvContent] of [handleExport]. *)
Definition handleExport (clients : list Client) : string :=
  join ImportModal.newline
    (map (join ",") (exportHeader :: map exportRow clients)).

End WithPlatform.

End App.

(* ================================================================== *)
(** ** A small concrete platform and concrete inputs *)
(* ================================================================== *)

(** A platform that knows two dates, used to run the definitions on
    concrete inputs.  A date-only text and the ISO timestamp produced for it
    parse to the same time value. *)
Module Demo.

Inductive Day : Type := Jan5 | Mar20.

Definition dayOfText (s : string) : option Day :=
  if (s =? "2024-01-05")%string then Some Jan5
  else if (s =? "2024-01-05T00:00:00.000Z")%string then Some Jan5
  else if (s =? "2024-03-20")%string then Some Mar20
  else if (s =? "2024-03-20T00:00:00.000Z")%string then Some Mar20
  else None.

Definition isoOfDay (d : Day) : string :=
  match d with
  | Jan5 => "2024-01-05T00:00:00.000Z"
  | Mar20 => "2024-03-20T00:00:00.000Z"
  end.

Definition localeOfDay (d : Day) : string :=
  match d with
  | Jan5 => "1/5/2024"
  | Mar20 => "3/20/2024"
  end.

Definition platform : Platform :=
  {| Time := Day;
     parseDate := dayOfText;
     toISOString := isoOfDay;
     toLocaleDateString := localeOfDay;
     randomUUID := fun i => "uuid-" ++ ImportModal.natToString i;
     now := fun _ => Mar20 |}.

Definition mkRow (n c d u s : string) : ImportModal.CSVRow :=
  [("Name", n); ("Assigned Clinician", c); ("Assigned Date", d);
   ("Units Used", u); ("Status", s)].

(** The sample row of the downloadable template. *)
Definition rowJohn : ImportModal.CSVRow :=
  mkRow "John Doe" "Dr. Smith" "2024-03-20" "120" "New Authorization".

(** The rows of the specification's two-row scenario. *)
Definition rowJane : ImportModal.CSVRow :=
  mkRow "Jane" " Dr. X" " 2024-01-05" " 100" " Newly Assigned".

Definition rowJane1000 : ImportModal.CSVRow :=
  mkRow "Jane" "Dr. X" "2024-01-05" "1000" "Newly Assigned".

(** A units cell that is not the text of an integer. *)
Definition rowFraction : ImportModal.CSVRow :=
  mkRow "Jane" "Dr. X" "2024-01-05" "960.9" "Newly Assigned".

(** A status in lower case under an upper-case column key. *)
Definition rowLowerStatus : ImportModal.CSVRow :=
  [("NAME", "Jane"); ("CLINICIAN", "Dr. X"); ("DATE", "2024-01-05");
   ("UNITS", "100"); ("STATUS", "new authorization")].

(** No column for the status. *)
Definition rowNoStatus : ImportModal.CSVRow :=
  [("Name", "Jane"); ("Clinician", "Dr. X"); ("Date", "2024-01-05");
   ("Units", "100")].

(** Every check after the header resolution fails at once. *)
Definition rowAllBad : ImportModal.CSVRow :=
  mkRow "" "Dr. X" "yesterday" "1000" "unknown".

Definition client (i n : string) (u : Z) : Client :=
  {| id := i; name := n; clinician := "Dr. Smith";
     assignedDate := "2024-03-20T00:00:00.000Z"; unitsUsed := u;
     status := "New Authorization";
     lastUpdated := "2024-01-05T00:00:00.000Z" |}.

Definition roster3 : list Client :=
  [client "a" "Ann" 10; client "b" "Bob, Jr." 20; client "c" "Cy" 960].

(** The same platform on a host that also reads back the dates it prints
    for the locale. *)
Definition dayOfLocaleText (s : string) : option Day :=
  if (s =? "1/5/2024")%string then Some Jan5
  else if (s =? "3/20/2024")%string then Some Mar20
  else dayOfText s.

Definition localePlatform : Platform :=
  {| Time := Day;
     parseDate := dayOfLocaleText;
     toISOString := isoOfDay;
     toLocaleDateString := localeOfDay;
     randomUUID := fun i => "uuid-" ++ ImportModal.natToString i;
     now := fun _ => Mar20 |}.

End Demo.

(* ================================================================== *)
(** ** Vocabulary of the properties *)
(* ================================================================== *)

Import JS ImportModal ClientTable App.

Section Vocabulary.
Context {P : Platform}.

(** The trimmed cell text a row offers for a logical field (the values
    [name], [clinician], [assignedDate], [unitsUsed] and [status] of the
    callback), [None] where there is no such cell. *)
Definition resolved (f : LogicalField) (row : CSVRow) : option string :=
  cell row (findMatchingHeader (expectedHeaders f) row).

(** Some key of the row matches an alias of the field. *)
Definition hasColumn (f : LogicalField) (row : CSVRow) : bool :=
  existsb (keyMatches (expectedHeaders f)) (keys row).

(** The five checks of the importer, each on its own. *)
Definition columnsResolved (row : CSVRow) : bool :=
  forallb (fun f => hasColumn f row) allFields.

Definition fieldsPresent (row : CSVRow) : bool :=
  forallb (fun f => truthy (resolved f row)) allFields.

Definition unitsValid (row : CSVRow) : bool :=
  match parseInt (toString (resolved FUnitsUsed row)) with
  | Some u => (0 <=? u) && (u <=? 960)
  | None => false
  end.

Definition statusValid (row : CSVRow) : bool :=
  includes CLIENT_STATUSES (toString (resolved FStatus row)).

Definition dateValid (row : CSVRow) : bool :=
  match parseDate (toString (resolved FAssignedDate row)) with
  | Some _ => true
  | None => false
  end.

(** The row passes: a client is pushed for it. *)
Definition rowValid (row : CSVRow) : bool :=
  match validateRow row with
  | inr _ => true
  | inl _ => false
  end.

(** The clients and the messages pushed for the rows of [data], the first
    of which has index [index]. *)
Fixpoint clientsFrom (index : nat) (data : list CSVRow) : list Client :=
  match data with
  | [] => []
  | row :: rest =>
      match validateRow row with
      | inr f => newClient index f :: clientsFrom (S index) rest
      | inl _ => clientsFrom (S index) rest
      end
  end.

Fixpoint errorsFrom (index : nat) (data : list CSVRow) : list string :=
  match data with
  | [] => []
  | row :: rest =>
      match validateRow row with
      | inr _ => errorsFrom (S index) rest
      | inl k => errorMessage index k :: errorsFrom (S index) rest
      end
  end.

(** The units cell an accepted row comes back with: the integer read from
    the trimmed units text, printed. *)
Definition reexportedUnits (row : CSVRow) : string :=
  match parseInt (toString (resolved FUnitsUsed row)) with
  | Some u => numberToString u
  | None => "NaN"
  end.

(** The cells of the exported line that an accepted row at position [index]
    comes back as. *)
Definition reexportedRow (index : nat) (row : CSVRow) : list string :=
  [ toString (resolved FName row);
    toString (resolved FClinician row);
    match parseDate (toString (resolved FAssignedDate row)) with
    | Some t => toLocaleDateString t
    | None => "Invalid Date"
    end;
    reexportedUnits row;
    toString (resolved FStatus row);
    toLocaleDateString (now index) ].

End Vocabulary.

(** The number written by the decimal digits [d], read from the left after
    the digits already accumulated in [acc]. *)
Fixpoint decimalValue (d : Decimal.uint) (acc : Z) : Z :=
  match d with
  | Decimal.Nil => acc
  | Decimal.D0 l => decimalValue l (10 * acc + 0)
  | Decimal.D1 l => decimalValue l (10 * acc + 1)
  | Decimal.D2 l => decimalValue l (10 * acc + 2)
  | Decimal.D3 l => decimalValue l (10 * acc + 3)
  | Decimal.D4 l => decimalValue l (10 * acc + 4)
  | Decimal.D5 l => decimalValue l (10 * acc + 5)
  | Decimal.D6 l => decimalValue l (10 * acc + 6)
  | Decimal.D7 l => decimalValue l (10 * acc + 7)
  | Decimal.D8 l => decimalValue l (10 * acc + 8)
  | Decimal.D9 l => decimalValue l (10 * acc + 9)
  end.

(** Some code unit of the string is white space. *)
Fixpoint hasWhiteSpace (s : string) : bool :=
  match s with
  | EmptyString => false
  | String c r => isWhiteSpace c || hasWhiteSpace r
  end.

(** Choosing a file with rows [data] and pressing Import, with the dialog
    wired as in [App]: [onImport={handleImportClients}]. *)
Definition importFlow {P : Platform} (data : list CSVRow)
    (clients : list Client) : ImportState * list Client :=
  handleImport handleImportClients (parseCSV data) clients.

(** Filling the add-client form, created at time [opened], by the events
    [events] and submitting it at time [today], with the dialog wired as in
    [App]: [onSubmit={handleAddClient}]. *)
Definition addFlow {P : Platform} (opened : Time)
    (events : list AddClientModal.FormEvent) (today : Time)
    (newId : string) (stamp : Time) (clients : list Client)
  : AddClientModal.FormData * list Client :=
  AddClientModal.handleSubmit (handleAddClient newId stamp)
    (fold_left AddClientModal.onChange events
       (AddClientModal.initialFormData opened))
    today clients.

(** The row object that has the cells of a client's exported line under
    the cells of the exported header. *)
Definition exportedRowObject {P : Platform} (client : Client) : CSVRow :=
  combine exportHeader (exportRow client).

(** Every code unit of the string is white space. *)
Fixpoint allWhiteSpace (s : string) : bool :=
  match s with
  | EmptyString => true
  | String c r => isWhiteSpace c && allWhiteSpace r
  end.

(** Number of occurrences of a code unit. *)
Fixpoint countChar (c : ascii) (s : string) : nat :=
  match s with
  | EmptyString => 0%nat
  | String a r => ((if Ascii.eqb a c then 1 else 0) + countChar c r)%nat
  end.

(** The status invariant of the roster. *)
Definition statusInvariant (clients : list Client) : Prop :=
  Forall (fun c => In (status c) CLIENT_STATUSES) clients.


(** The units invariant of the roster. *)
Definition unitsInvariant (clients : list Client) : Prop :=
  Forall (fun c => 0 <= unitsUsed c <= 960) clients.

(** Read from the specification, for comparison with [parseInt]: the text of
    an integer is an optional sign followed by decimal digits and nothing
    else. *)
Fixpoint allDigits (s : string) : bool :=
  match s with
  | EmptyString => true
  | String c r =>
      match digitValue 10 c with
      | Some _ => allDigits r
      | None => false
      end
  end.

Definition isIntegerText (s : string) : bool :=
  match s with
  | EmptyString => false
  | String "-" r | String "+" r => negb (r =? "")%string && allDigits r
  | _ => allDigits s
  end.

(** The unit text is, as written, an integer within [0, 960]. *)
Definition unitsTextInRange (s : string) : bool :=
  isIntegerText s &&
  match parseInt s with
  | Some u => (0 <=? u) && (u <=? 960)
  | None => false
  end.

(* ================================================================== *)
(** ** Supporting lemmas *)
(* ================================================================== *)

(** In a hypothesis [Hv] on the outcome of the cascade, take the branch in
    which the check [c] passed. *)
Ltac pass_check c Hv :=
  destruct c; cbn [negb] in Hv; [|discriminate Hv].

Section ImportLemmas.
Context {P : Platform}.

Lemma includes_In (l : list string) (x : string) :
  includes l x = true <-> In x l.
Proof.
  unfold includes. rewrite existsb_exists. split.
  - intros [y [Hy He]]. apply String.eqb_eq in He. now subst.
  - intros H. exists x. split; [assumption | apply String.eqb_refl].
Qed.

Lemma stripWhiteSpace_clean (s : string) :
  hasWhiteSpace (stripWhiteSpace s) = false.
Proof.
  induction s as [|c s IH]; simpl; [reflexivity|].
  destruct (isWhiteSpace c) eqn:E; simpl; [exact IH|].
  now rewrite E.
Qed.

(** No alias list is matched by the empty key. *)
Lemma empty_key_never_matches (f : LogicalField) :
  keyMatches (expectedHeaders f) "" = false.
Proof. destruct f; reflexivity. Qed.

Lemma find_none_existsb {A : Type} (p : A -> bool) (l : list A) :
  JS.find p l = None <-> existsb p l = false.
Proof.
  unfold JS.find. induction l as [|a l IH]; simpl.
  - tauto.
  - destruct (p a); simpl; [split; discriminate | exact IH].
Qed.

Lemma find_some_matches (f : LogicalField) (row : CSVRow) (key : string) :
  findMatchingHeader (expectedHeaders f) row = Some key ->
  In key (keys row) /\ keyMatches (expectedHeaders f) key = true.
Proof.
  unfold findMatchingHeader, JS.find. intros H.
  apply List.find_some in H. exact H.
Qed.

(** [!header] is the absence of a matching key: a key that matches is never
    the empty string. *)
Lemma truthy_find (f : LogicalField) (row : CSVRow) :
  truthy (findMatchingHeader (expectedHeaders f) row) = hasColumn f row.
Proof.
  unfold hasColumn.
  destruct (findMatchingHeader (expectedHeaders f) row) as [key|] eqn:E.
  - apply find_some_matches in E. destruct E as [Hin Hm].
    assert (Hex : existsb (keyMatches (expectedHeaders f)) (keys row) = true).
    { apply existsb_exists. now exists key. }
    rewrite Hex. simpl.
    destruct (String.eqb_spec key ""); [|reflexivity].
    subst key. rewrite empty_key_never_matches in Hm. discriminate.
  - simpl. symmetry. now apply find_none_existsb.
Qed.

Lemma units_range_test (u : Z) :
  (u <? 0) || (u >? 960) = negb ((0 <=? u) && (u <=? 960)).
Proof.
  rewrite Z.gtb_ltb.
  destruct (Z.ltb_spec u 0), (Z.ltb_spec 960 u),
           (Z.leb_spec 0 u), (Z.leb_spec u 960); simpl; try reflexivity; lia.
Qed.

(** The callback as a cascade of the five checks. *)
Lemma validateRow_cascade (row : CSVRow) :
  validateRow row =
  if negb (columnsResolved row) then inl MissingColumns
  else if negb (fieldsPresent row) then inl MissingFields
  else if negb (unitsValid row) then inl InvalidUnits
  else if negb (statusValid row) then inl InvalidStatus
  else
    match parseDate (toString (resolved FAssignedDate row)),
          parseInt (toString (resolved FUnitsUsed row)) with
    | Some date, Some units =>
        inr (mkFields (toString (resolved FName row))
               (toString (resolved FClinician row)) date units
               (toString (resolved FStatus row)))
    | _, _ => inl InvalidDate
    end.
Proof.
  unfold validateRow, columnsResolved, fieldsPresent, unitsValid, statusValid,
    allFields, forallb.
  rewrite <- !truthy_find. unfold resolved, expectedHeaders.
  rewrite !andb_true_r.
  destruct (truthy (findMatchingHeader EXPECTED_HEADERS.name row));
    [|reflexivity].
  destruct (truthy (findMatchingHeader EXPECTED_HEADERS.clinician row));
    [|reflexivity].
  destruct (truthy (findMatchingHeader EXPECTED_HEADERS.assignedDate row));
    [|reflexivity].
  destruct (truthy (findMatchingHeader EXPECTED_HEADERS.unitsUsed row));
    [|reflexivity].
  destruct (truthy (findMatchingHeader EXPECTED_HEADERS.status row));
    [|reflexivity].
  cbn [negb orb andb].
  destruct (truthy (cell row (findMatchingHeader EXPECTED_HEADERS.name row)));
    [|reflexivity].
  destruct (truthy (cell row (findMatchingHeader EXPECTED_HEADERS.clinician row)));
    [|reflexivity].
  destruct (truthy (cell row (findMatchingHeader EXPECTED_HEADERS.assignedDate row)));
    [|reflexivity].
  destruct (truthy (cell row (findMatchingHeader EXPECTED_HEADERS.unitsUsed row)));
    [|reflexivity].
  destruct (truthy (cell row (findMatchingHeader EXPECTED_HEADERS.status row)));
    [|reflexivity].
  cbn [negb orb andb].
  destruct (parseInt _) as [u|]; [|reflexivity].
  rewrite units_range_test.
  destruct ((0 <=? u) && (u <=? 960)); [|reflexivity].
  cbn [negb].
  destruct (includes CLIENT_STATUSES _); [|reflexivity].
  cbn [negb].
  destruct (parseDate _); reflexivity.
Qed.

Lemma forEachRow_pushes (data : list CSVRow) (index : nat)
    (parsedClients : list Client) (errors : list string) :
  forEachRow data index (parsedClients, errors) =
  ((parsedClients ++ clientsFrom index data)%list,
   (errors ++ errorsFrom index data)%list).
Proof.
  revert index parsedClients errors.
  induction data as [|row rest IH]; intros index parsedClients errors.
  - simpl. now rewrite !app_nil_r.
  - simpl. destruct (validateRow row) as [k|f]; rewrite IH.
    + now rewrite <- app_assoc.
    + now rewrite <- app_assoc.
Qed.

(** The outcome of an import in terms of the pushes. *)
Lemma parseCSV_outcome (data : list CSVRow) :
  parseCSV data =
  match errorsFrom 0 data with
  | [] => {| preview := clientsFrom 0 data; error := "" |}
  | errors => {| preview := []; error := join newline errors |}
  end.
Proof.
  unfold parseCSV. rewrite forEachRow_pushes. simpl.
  destruct (errorsFrom 0 data); reflexivity.
Qed.

Lemma errorsFrom_nil_iff (data : list CSVRow) (index : nat) :
  errorsFrom index data = [] <-> forallb rowValid data = true.
Proof.
  revert index. induction data as [|row rest IH]; intros index; simpl.
  - tauto.
  - unfold rowValid at 1. destruct (validateRow row) as [k|f]; simpl.
    + split; discriminate.
    + apply IH.
Qed.

End ImportLemmas.

Section ImportReports.
Context {P : Platform}.

(** A rejected row has its message, with its own 1-based number, among the
    messages collected. *)
Lemma errorsFrom_reports (data : list CSVRow) (index i : nat)
    (row : CSVRow) (k : ErrorKind) :
  nth_error data i = Some row ->
  validateRow row = inl k ->
  In (errorMessage (index + i) k) (errorsFrom index data).
Proof.
  revert index i. induction data as [|r rest IH]; intros index i Hn Hv.
  - destruct i; discriminate.
  - destruct i as [|i]; simpl in Hn.
    + injection Hn as ->. simpl. rewrite Hv. left.
      now rewrite Nat.add_0_r.
    + simpl. specialize (IH (S index) i Hn Hv).
      replace (S index + i)%nat with (index + S i)%nat in IH by lia.
      destruct (validateRow r); [right|]; exact IH.
Qed.

Lemma some_row_fails_errors (data : list CSVRow) :
  (exists row, In row data /\ rowValid row = false) ->
  errorsFrom 0 data <> [].
Proof.
  intros [row [Hin Hbad]] Hnil.
  apply errorsFrom_nil_iff in Hnil.
  rewrite forallb_forall in Hnil. specialize (Hnil row Hin). congruence.
Qed.

End ImportReports.

(* ================================================================== *)
(** ** C1: the import is all-or-nothing *)
(* ================================================================== *)

(** C1.  For every parsed CSV input: if at least one data row fails
    validation, the import stages no client (the preview is empty) and
    produces only the consolidated error text, the collected messages joined
    by line feeds, of which there is at least one; and a non-empty preview is
    produced only when every row validates, in which case the preview holds
    the clients built for the rows and the error text is empty. *)
Theorem import_all_or_nothing {P : Platform} (data : list CSVRow) :
  ((exists row, In row data /\ rowValid row = false) ->
     preview (parseCSV data) = [] /\
     error (parseCSV data) = join newline (errorsFrom 0 data) /\
     errorsFrom 0 data <> [])
  /\
  (preview (parseCSV data) <> [] ->
     (forall row, In row data -> rowValid row = true) /\
     preview (parseCSV data) = clientsFrom 0 data /\
     error (parseCSV data) = "").
Proof.
  split.
  - intros Hbad. pose proof (some_row_fails_errors data Hbad) as Hne.
    rewrite parseCSV_outcome.
    destruct (errorsFrom 0 data) as [|e es]; [contradiction|].
    repeat split; try reflexivity. discriminate.
  - rewrite parseCSV_outcome.
    destruct (errorsFrom 0 data) as [|e es] eqn:E; simpl.
    + intros _. split; [|split; reflexivity].
      apply errorsFrom_nil_iff in E. now apply forallb_forall.
    + intros H. now contradiction H.
Qed.

Lemma import_all_or_nothing_witness :
  preview (parseCSV (P := Demo.platform) [Demo.rowJane; Demo.rowJane1000]) = []
  /\
  rowValid (P := Demo.platform) Demo.rowJohn = true.
Proof.
  split.
  - apply (proj1 (import_all_or_nothing (P := Demo.platform)
                    [Demo.rowJane; Demo.rowJane1000])).
    exists Demo.rowJane1000. split; [simpl; tauto | reflexivity].
  - apply (proj2 (import_all_or_nothing (P := Demo.platform)
                    [Demo.rowJane; Demo.rowJohn])).
    + vm_compute. discriminate.
    + simpl. tauto.
Defined.

(** The two-row scenario of the specification: the first row is valid, the
    second has 1000 units; nothing is staged and the one message names row 2
    and the units. *)
Example import_scenario_two_rows :
  parseCSV (P := Demo.platform) [Demo.rowJane; Demo.rowJane1000] =
  {| preview := [];
     error := "Row 2: Invalid units (must be between 0-960)" |}.
Proof. reflexivity. Qed.

(* ================================================================== *)
(** ** C2: header resolution *)
(* ================================================================== *)

(** C2.  For every row and every logical field, a column key matches
    exactly when the key, lowercased and with all white space removed, is a
    member of the field's alias list, lowercased but with its white space
    kept (so the alias "client status" is matched by no key at all, not even
    by itself); the header found for a field is undefined exactly when no key
    of the row matches; and a row in which some logical field has no matching
    key fails with the MissingColumns message, which names the five required
    columns. *)
Theorem header_resolution_asymmetric {P : Platform} (row : CSVRow) :
  (forall f key,
     keyMatches (expectedHeaders f) key = true <->
     In (stripWhiteSpace (toLowerCase key))
        (map toLowerCase (expectedHeaders f)))
  /\
  (In "client status" (expectedHeaders FStatus) /\
   forall key, stripWhiteSpace (toLowerCase key) <> "client status")
  /\
  (forall f,
     findMatchingHeader (expectedHeaders f) row = None <->
     (forall key, In key (keys row) ->
        keyMatches (expectedHeaders f) key = false))
  /\
  ((exists f, forall key, In key (keys row) ->
      keyMatches (expectedHeaders f) key = false) ->
   validateRow row = inl MissingColumns /\
   forall data i, nth_error data i = Some row ->
     In (errorMessage i MissingColumns) (errorsFrom 0 data))
  /\
  (forall index,
     errorMessage index MissingColumns =
     "Row " ++ natToString (index + 1) ++
     ": Missing or invalid column headers. Required columns: Name, Assigned Clinician, Assigned Date, Units Used, Status").
Proof.
  assert (Hnone : forall f,
     findMatchingHeader (expectedHeaders f) row = None <->
     (forall key, In key (keys row) ->
        keyMatches (expectedHeaders f) key = false)).
  { intros f. unfold findMatchingHeader. rewrite find_none_existsb.
    split.
    - intros H key Hin.
      destruct (keyMatches (expectedHeaders f) key) eqn:E; [|reflexivity].
      assert (existsb (keyMatches (expectedHeaders f)) (keys row) = true)
        by (apply existsb_exists; now exists key).
      congruence.
    - intros H.
      destruct (existsb (keyMatches (expectedHeaders f)) (keys row)) eqn:E;
        [|reflexivity].
      apply existsb_exists in E. destruct E as [key [Hin Hm]].
      rewrite (H key Hin) in Hm. discriminate. }
  split; [|split; [|split; [|split]]].
  - intros f key. unfold keyMatches. apply includes_In.
  - split; [simpl; tauto|].
    intros key H.
    pose proof (stripWhiteSpace_clean (toLowerCase key)) as Hc.
    rewrite H in Hc. discriminate.
  - exact Hnone.
  - intros [f Hf]. apply Hnone in Hf.
    assert (Hv : validateRow row = inl MissingColumns).
    { rewrite validateRow_cascade.
      assert (Hc : columnsResolved row = false).
      { unfold columnsResolved.
        destruct (forallb (fun f0 => hasColumn f0 row) allFields) eqn:E;
          [|reflexivity].
        rewrite forallb_forall in E.
        assert (Hin : In f allFields) by (destruct f; simpl; tauto).
        specialize (E f Hin). rewrite <- truthy_find, Hf in E.
        discriminate. }
      now rewrite Hc. }
    split; [exact Hv|].
    intros data i Hn. exact (errorsFrom_reports data 0 i row _ Hn Hv).
  - intros index. reflexivity.
Qed.

Lemma header_resolution_asymmetric_witness :
  validateRow (P := Demo.platform) Demo.rowNoStatus = inl MissingColumns.
Proof.
  apply (proj1 (proj2 (proj2 (proj2
    (header_resolution_asymmetric (P := Demo.platform) Demo.rowNoStatus))))).
  exists FStatus. intros key Hin. simpl in Hin.
  repeat (destruct Hin as [<- | Hin]; [reflexivity|]). contradiction.
Defined.

(** The alias lists as matched in effect: a header written with a space is
    found through the alias written without one, and the two aliases that
    have no such twin are dead. *)
Example header_aliases_in_effect :
  keyMatches EXPECTED_HEADERS.name "Client Name" = true /\
  keyMatches EXPECTED_HEADERS.unitsUsed " UNITS  used " = true /\
  keyMatches EXPECTED_HEADERS.assignedDate "Assignment Date" = false /\
  keyMatches EXPECTED_HEADERS.status "Client Status" = false.
Proof. repeat split. Qed.

(* ================================================================== *)
(** ** C3: the units check of the importer *)
(* ================================================================== *)

(** C3, as stated, fails.  The row of [Demo.rowFraction] has all five values
    present and the units text "960.9", which is not the text of an integer
    and lies above 960; the claim has it rejected with InvalidUnits, the
    importer accepts it. *)
Lemma import_units_strict_counterexample :
  ~ (forall row : CSVRow,
       columnsResolved row = true ->
       fieldsPresent row = true ->
       unitsTextInRange (toString (resolved FUnitsUsed row)) = false ->
       validateRow (P := Demo.platform) row = inl InvalidUnits).
Proof.
  intros H.
  specialize (H Demo.rowFraction eq_refl eq_refl eq_refl).
  vm_compute in H. discriminate.
Qed.

(** What the importer does with that row: it stores 960. *)
Example import_units_fraction_accepted :
  option_map unitsUsed
    (hd_error (preview (parseCSV (P := Demo.platform) [Demo.rowFraction])))
  = Some 960.
Proof. reflexivity. Qed.

(** C3, amended.  For every row whose five resolved values are present
    after trimming, the units text is read with [parseInt] (an optional sign
    and the longest prefix of digits; whatever follows is ignored).  The row
    is rejected with InvalidUnits exactly when [parseInt] yields NaN or an
    integer outside [0, 960]; a row that passes stores the integer
    [parseInt] returned, which lies within [0, 960]. *)
Theorem import_units_parseInt {P : Platform} (row : CSVRow) :
  columnsResolved row = true ->
  fieldsPresent row = true ->
  (validateRow row = inl InvalidUnits <->
     parseInt (toString (resolved FUnitsUsed row)) = None \/
     exists u, parseInt (toString (resolved FUnitsUsed row)) = Some u /\
               (u < 0 \/ 960 < u))
  /\
  (forall f index,
     validateRow row = inr f ->
     parseInt (toString (resolved FUnitsUsed row)) =
       Some (unitsUsed (newClient index f)) /\
     0 <= unitsUsed (newClient index f) <= 960).
Proof.
  intros Hc Hf. rewrite validateRow_cascade, Hc, Hf. unfold unitsValid.
  cbn [negb].
  destruct (parseInt (toString (resolved FUnitsUsed row))) as [u|].
  - destruct (Z.leb_spec 0 u) as [H0|H0], (Z.leb_spec u 960) as [H1|H1];
      cbn [andb negb].
    + split.
      * split.
        -- intros H.
           destruct (statusValid row); cbn [negb] in H; [|discriminate].
           destruct (parseDate _); discriminate.
        -- intros [H|[u' [H Hr]]]; [discriminate|].
           injection H as <-. lia.
      * intros f index H.
        destruct (statusValid row); cbn [negb] in H; [|discriminate].
        destruct (parseDate _); [|discriminate].
        injection H as <-. simpl. split; [reflexivity | lia].
    + split; [|intros; discriminate].
      split; [|reflexivity]. intros _. right. exists u. split; [reflexivity|lia].
    + split; [|intros; discriminate].
      split; [|reflexivity]. intros _. right. exists u. split; [reflexivity|lia].
    + split; [|intros; discriminate].
      split; [|reflexivity]. intros _. right. exists u. split; [reflexivity|lia].
  - cbn [negb]. split; [|intros; discriminate].
    split; [now left | reflexivity].
Qed.

Lemma import_units_parseInt_witness :
  validateRow (P := Demo.platform) Demo.rowJane1000 = inl InvalidUnits /\
  parseInt "960.9" =
    Some (unitsUsed
            (newClient (P := Demo.platform) 0
               (mkFields (P := Demo.platform)
                  "Jane" "Dr. X" Demo.Jan5 960 "Newly Assigned"))).
Proof.
  split.
  - apply (proj1 (import_units_parseInt (P := Demo.platform)
                    Demo.rowJane1000 eq_refl eq_refl)).
    right. exists 1000. split; [reflexivity | lia].
  - exact (proj1 (proj2 (import_units_parseInt (P := Demo.platform)
                           Demo.rowFraction eq_refl eq_refl)
                    (mkFields (P := Demo.platform)
                       "Jane" "Dr. X" Demo.Jan5 960 "Newly Assigned")
                    0%nat eq_refl)).
Defined.

(* ================================================================== *)
(** ** C5: the order of the checks *)
(* ================================================================== *)

(** C5.  For every row, each of the four per-row errors is reported exactly
    when its check is the first that fails, in the order: presence of the
    five trimmed values (MissingFields), units (InvalidUnits), status
    (InvalidStatus), date (InvalidDate), all of them after the header
    resolution; the row is accepted exactly when every check passes; and a
    row contributes at most one message, so an import reports at most as
    many messages as it has rows. *)
Theorem validation_order {P : Platform} (row : CSVRow) :
  (validateRow row = inl MissingFields <->
     columnsResolved row = true /\ fieldsPresent row = false)
  /\
  (validateRow row = inl InvalidUnits <->
     columnsResolved row = true /\ fieldsPresent row = true /\
     unitsValid row = false)
  /\
  (validateRow row = inl InvalidStatus <->
     columnsResolved row = true /\ fieldsPresent row = true /\
     unitsValid row = true /\ statusValid row = false)
  /\
  (validateRow row = inl InvalidDate <->
     columnsResolved row = true /\ fieldsPresent row = true /\
     unitsValid row = true /\ statusValid row = true /\
     dateValid row = false)
  /\
  (rowValid row = true <->
     columnsResolved row = true /\ fieldsPresent row = true /\
     unitsValid row = true /\ statusValid row = true /\
     dateValid row = true)
  /\
  (forall index, (List.length (errorsFrom index [row]) <= 1)%nat)
  /\
  (forall data index,
     (List.length (errorsFrom index data) <= List.length data)%nat).
Proof.
  assert (Hlen : forall data index,
            (List.length (errorsFrom index data) <= List.length data)%nat).
  { induction data as [|r rest IH]; intros index; simpl; [lia|].
    destruct (validateRow r); simpl; specialize (IH (S index)); lia. }
  unfold rowValid. rewrite validateRow_cascade. unfold unitsValid, dateValid.
  destruct (columnsResolved row), (fieldsPresent row),
    (parseInt (toString (resolved FUnitsUsed row))) as [u|],
    (statusValid row),
    (parseDate (toString (resolved FAssignedDate row)));
    cbn [negb andb]; try destruct ((0 <=? u) && (u <=? 960));
    cbn [negb andb];
    (repeat split; try (intros; exact (Hlen _ _));
     try discriminate; try tauto;
     try (intros; repeat match goal with H : _ /\ _ |- _ => destruct H end;
          discriminate)).
Qed.

(** A row failing every check at once reports the first one only. *)
Example validation_order_first_failure :
  fieldsPresent Demo.rowAllBad = false /\
  unitsValid Demo.rowAllBad = false /\
  statusValid Demo.rowAllBad = false /\
  dateValid (P := Demo.platform) Demo.rowAllBad = false /\
  parseCSV (P := Demo.platform) [Demo.rowAllBad] =
    {| preview := []; error := "Row 1: Missing required fields" |}.
Proof. repeat split. Qed.

(* ================================================================== *)
(** ** C7: the status check is exact *)
(* ================================================================== *)

Lemma toLowerChar_idempotent (c : ascii) :
  toLowerChar (toLowerChar c) = toLowerChar c.
Proof. destruct c as [[] [] [] [] [] [] [] []]; reflexivity. Qed.

Lemma toLowerCase_idempotent (s : string) :
  toLowerCase (toLowerCase s) = toLowerCase s.
Proof.
  induction s as [|c s IH]; simpl; [reflexivity|].
  now rewrite toLowerChar_idempotent, IH.
Qed.

(** Header matching does not see the case of the key. *)
Lemma keyMatches_case_insensitive (headers : list string) (key : string) :
  keyMatches headers (toLowerCase key) = keyMatches headers key.
Proof. unfold keyMatches. now rewrite toLowerCase_idempotent. Qed.

(** C7.  The status test accepts a text exactly when it is, character for
    character, one of the six canonical literals.  For every row, the
    (trimmed) status value passes the test exactly when it is one of the
    six; the row is rejected with InvalidStatus exactly when the earlier
    checks pass and the status is none of the six; an accepted row carries
    one of the six.  In particular a row whose status is "new authorization"
    and that passes the earlier checks is rejected with InvalidStatus, while
    the matching of column keys ignores case. *)
Theorem status_exact_match {P : Platform} (row : CSVRow) :
  (forall s : string,
     includes CLIENT_STATUSES s = true <->
     s = "New Authorization" \/ s = "Current Authorization" \/
     s = "Current Authorization (New LBS)" \/ s = "Newly Assigned" \/
     s = "Client Hospitalized" \/ s = "Frequent Caregiver Cancellations")
  /\
  (statusValid row = true <->
     In (toString (resolved FStatus row)) CLIENT_STATUSES)
  /\
  (validateRow row = inl InvalidStatus <->
     columnsResolved row = true /\ fieldsPresent row = true /\
     unitsValid row = true /\
     ~ In (toString (resolved FStatus row)) CLIENT_STATUSES)
  /\
  (forall f, validateRow row = inr f ->
     f_status f = toString (resolved FStatus row) /\
     In (f_status f) CLIENT_STATUSES)
  /\
  (toString (resolved FStatus row) = "new authorization" ->
   columnsResolved row = true -> fieldsPresent row = true ->
   unitsValid row = true ->
   validateRow row = inl InvalidStatus)
  /\
  (forall headers key,
     keyMatches headers (toLowerCase key) = keyMatches headers key).
Proof.
  assert (Hsv : statusValid row = true <->
                In (toString (resolved FStatus row)) CLIENT_STATUSES)
    by (unfold statusValid; apply includes_In).
  assert (Hcases : validateRow row = inl InvalidStatus <->
     columnsResolved row = true /\ fieldsPresent row = true /\
     unitsValid row = true /\ statusValid row = false).
  { rewrite validateRow_cascade. unfold unitsValid.
    destruct (columnsResolved row), (fieldsPresent row),
      (parseInt (toString (resolved FUnitsUsed row))) as [u|],
      (statusValid row),
      (parseDate (toString (resolved FAssignedDate row)));
      cbn [negb andb]; try destruct ((0 <=? u) && (u <=? 960));
      cbn [negb andb];
      (split; [try discriminate; tauto |
               intros (? & ? & ? & ?); try discriminate; reflexivity]). }
  split; [|split; [|split; [|split; [|split]]]].
  - intros s. rewrite includes_In. simpl. split.
    + intros H. repeat (destruct H as [<- | H]; [tauto|]). contradiction.
    + intros H.
      repeat (destruct H as [-> | H]; [tauto|]). subst s. tauto.
  - exact Hsv.
  - rewrite Hcases. split; intros (Hc & Hf & Hu & Hs); repeat split; trivial.
    + intros Hin. apply Hsv in Hin. congruence.
    + destruct (statusValid row); [|reflexivity].
      exfalso. apply Hs. now apply Hsv.
  - intros f Hv. rewrite validateRow_cascade in Hv.
    pass_check (columnsResolved row) Hv.
    pass_check (fieldsPresent row) Hv.
    pass_check (unitsValid row) Hv.
    destruct (statusValid row) eqn:Es; cbn [negb] in Hv; [|discriminate].
    destruct (parseDate _); [|discriminate].
    destruct (parseInt _); [|discriminate].
    injection Hv as <-. simpl. split; [reflexivity|]. now apply Hsv.
  - intros Hs Hc Hf Hu. apply Hcases. repeat split; trivial.
    unfold statusValid. now rewrite Hs.
  - exact keyMatches_case_insensitive.
Qed.

Lemma status_exact_match_witness :
  validateRow (P := Demo.platform) Demo.rowLowerStatus = inl InvalidStatus.
Proof.
  exact (proj1 (proj2 (proj2 (proj2 (proj2
    (status_exact_match (P := Demo.platform) Demo.rowLowerStatus)))))
    eq_refl eq_refl eq_refl eq_refl).
Defined.

(** The canonical spelling under the same upper-case column keys passes. *)
Example status_canonical_accepted :
  rowValid (P := Demo.platform)
    [("NAME", "Jane"); ("CLINICIAN", "Dr. X"); ("DATE", "2024-01-05");
     ("UNITS", "100"); ("STATUS", "New Authorization")] = true.
Proof. reflexivity. Qed.

(* ================================================================== *)
(** ** Lemmas on the roster handlers *)
(* ================================================================== *)

Lemma mapFrom_unchanged {A : Type} (f : nat -> A -> A) (l : list A) (i : nat) :
  (forall j x, In x l -> f j x = x) -> mapFrom f i l = l.
Proof.
  revert i. induction l as [|x l IH]; intros i H; simpl; [reflexivity|].
  rewrite H by (simpl; tauto). f_equal. apply IH.
  intros j y Hy. apply H. simpl; tauto.
Qed.

Lemma mapFrom_Forall {A B : Type} (f : nat -> A -> B) (Q : B -> Prop)
    (l : list A) (i : nat) :
  (forall j x, In x l -> Q (f j x)) -> Forall Q (mapFrom f i l).
Proof.
  revert i. induction l as [|x l IH]; intros i H; simpl; constructor.
  - apply H. simpl; tauto.
  - apply IH. intros j y Hy. apply H. simpl; tauto.
Qed.

Lemma mapFrom_In {A B : Type} (f : nat -> A -> B) (l : list A) (i : nat)
    (y : B) :
  In y (mapFrom f i l) -> exists j x, In x l /\ y = f j x.
Proof.
  revert i. induction l as [|x l IH]; intros i H; simpl in H; [contradiction|].
  destruct H as [<- | H].
  - exists i, x. simpl; tauto.
  - destruct (IH (S i) H) as [j [x' [Hin He]]]. exists j, x'. simpl; tauto.
Qed.

Lemma unitsInputValue_range (value : string) :
  0 <= unitsInputValue value <= 960.
Proof. unfold unitsInputValue. lia. Qed.

(* ================================================================== *)
(** ** C4: the units invariant and the store *)
(* ================================================================== *)

(** C4, as stated, fails: on a roster within [0, 960] the store's unit
    update with the argument 1000 leaves a record with 1000 units. *)
Lemma store_units_unclamped_counterexample :
  ~ (forall (clients : list Client) (id0 : string) (units : Z),
       unitsInvariant clients ->
       unitsInvariant
         (handleUnitsChange (P := Demo.platform) id0 units clients)).
Proof.
  intros H.
  assert (Hinv : unitsInvariant Demo.roster3).
  { unfold unitsInvariant, Demo.roster3. repeat constructor; simpl; lia. }
  specialize (H Demo.roster3 "b" 1000 Hinv).
  unfold unitsInvariant, handleUnitsChange, Demo.roster3 in H. simpl in H.
  inversion H as [|c0 l0 _ H1]. inversion H1 as [|c1 l1 Hb _].
  simpl in Hb. lia.
Qed.

(** C4, amended.  The store does not check the argument of a unit update:
    every record with the given id receives the argument as it is, and the
    other records keep their units.  On a roster within [0, 960] the
    invariant survives the update whenever the argument lies within
    [0, 960]; the units input of the view only ever hands over such a value,
    whatever text was typed, so the invariant survives every update issued
    through the view. *)
Theorem store_units_rely_on_view {P : Platform}
    (clients : list Client) (id0 : string) (units : Z) :
  unitsInvariant clients ->
  (forall c, In c (handleUnitsChange id0 units clients) ->
     (id c = id0 -> unitsUsed c = units) /\
     (id c <> id0 -> In c clients))
  /\
  (0 <= units <= 960 ->
   unitsInvariant (handleUnitsChange id0 units clients))
  /\
  (forall value : string,
     0 <= unitsInputValue value <= 960 /\
     unitsInvariant
       (handleUnitsChange id0 (unitsInputValue value) clients)).
Proof.
  intros Hinv.
  assert (Hkeep : forall u, 0 <= u <= 960 ->
            unitsInvariant (handleUnitsChange id0 u clients)).
  { intros u Hu. unfold unitsInvariant, handleUnitsChange.
    apply mapFrom_Forall. intros j x Hx.
    destruct (id x =? id0)%string; simpl; [exact Hu|].
    unfold unitsInvariant in Hinv. rewrite Forall_forall in Hinv.
    now apply Hinv. }
  split; [|split].
  - intros c Hc. unfold handleUnitsChange in Hc.
    apply mapFrom_In in Hc. destruct Hc as [j [x [Hx ->]]].
    destruct (String.eqb_spec (id x) id0) as [E|E]; simpl.
    + split; [reflexivity | intros Hn; contradiction].
    + split; [intros He; contradiction | intros _; exact Hx].
  - apply Hkeep.
  - intros value. split; [apply unitsInputValue_range|].
    apply Hkeep, unitsInputValue_range.
Qed.

Lemma store_units_rely_on_view_witness :
  unitsInvariant
    (handleUnitsChange (P := Demo.platform) "b"
       (unitsInputValue "1000") Demo.roster3).
Proof.
  assert (Hinv : unitsInvariant Demo.roster3).
  { unfold unitsInvariant, Demo.roster3. repeat constructor; simpl; lia. }
  exact (proj2 (proj2 (proj2
    (store_units_rely_on_view (P := Demo.platform) Demo.roster3 "b" 0 Hinv))
    "1000")).
Defined.

(* ================================================================== *)
(** ** C8: updates for an unknown id change nothing *)
(* ================================================================== *)

(** C8.  For every roster and every id that no record of it carries, the
    unit update and the status update return the roster as it was: the same
    records with every field as before ([lastUpdated] included), in the same
    number and the same order. *)
Theorem update_unknown_id_noop {P : Platform}
    (clients : list Client) (id0 : string) (units : Z)
    (status0 : ClientStatus) :
  (forall c, In c clients -> id c <> id0) ->
  handleUnitsChange id0 units clients = clients /\
  handleStatusChange id0 status0 clients = clients.
Proof.
  intros Habsent. unfold handleUnitsChange, handleStatusChange.
  split; apply mapFrom_unchanged; intros j x Hx;
    (destruct (String.eqb_spec (id x) id0) as [E|E];
     [exfalso; exact (Habsent x Hx E) | reflexivity]).
Qed.

(** The scenario of the specification: [updateUnits(unknownId, 50)] on a
    roster of three. *)
Lemma update_unknown_id_noop_witness :
  handleUnitsChange (P := Demo.platform) "unknownId" 50 Demo.roster3
    = Demo.roster3 /\
  handleStatusChange (P := Demo.platform) "unknownId" "Newly Assigned"
    Demo.roster3 = Demo.roster3.
Proof.
  apply (update_unknown_id_noop (P := Demo.platform)).
  intros c Hc. simpl in Hc.
  repeat (destruct Hc as [<- | Hc]; [simpl; discriminate|]). contradiction.
Defined.

(** With a known id the record is rewritten in place and stamped. *)
Example update_known_id :
  map (fun c => (id c, unitsUsed c, lastUpdated c))
    (handleUnitsChange (P := Demo.platform) "b" 50 Demo.roster3) =
  [ ("a", 10, "2024-01-05T00:00:00.000Z");
    ("b", 50, "2024-03-20T00:00:00.000Z");
    ("c", 960, "2024-01-05T00:00:00.000Z") ].
Proof. reflexivity. Qed.

(* ================================================================== *)
(** ** C10: delete *)
(* ================================================================== *)

(** C10.  For every roster and every id, delete removes exactly the records
    carrying the id, all of them if several do: a record is in the result
    exactly when it is in the roster under another id; the records left are
    the records with another id as they were and in their order (deleting
    distributes over concatenation, and a single record is dropped or kept
    whole); the length drops by the number of records carrying the id; and
    when no record carries the id the roster is returned as it was. *)
Theorem delete_removes_exactly (clients : list Client) (id0 : string) :
  (forall c, In c (handleDeleteClient id0 clients) <->
             In c clients /\ id c <> id0)
  /\
  (forall before after,
     clients = (before ++ after)%list ->
     handleDeleteClient id0 clients =
     (handleDeleteClient id0 before ++ handleDeleteClient id0 after)%list)
  /\
  (forall c, handleDeleteClient id0 [c] =
             if (id c =? id0)%string then [] else [c])
  /\
  (List.length (handleDeleteClient id0 clients) +
   List.length (filter (fun c => (id c =? id0)%string) clients)
   = List.length clients)%nat
  /\
  ((forall c, In c clients -> id c <> id0) ->
   handleDeleteClient id0 clients = clients).
Proof.
  unfold handleDeleteClient.
  split; [|split; [|split; [|split]]].
  - intros c. rewrite filter_In. split; intros [Hin H]; split; trivial.
    + intros E. apply String.eqb_eq in E. rewrite E in H. discriminate.
    + destruct (String.eqb_spec (id c) id0); [contradiction | reflexivity].
  - intros before after ->. apply filter_app.
  - intros c. simpl. destruct (id c =? id0)%string; reflexivity.
  - induction clients as [|c l IH]; simpl; [reflexivity|].
    destruct (id c =? id0)%string; simpl; lia.
  - intros Habsent. induction clients as [|c l IH]; simpl; [reflexivity|].
    destruct (String.eqb_spec (id c) id0) as [E|E]; simpl.
    + exfalso. apply (Habsent c); simpl; tauto.
    + f_equal. apply IH. intros x Hx. apply Habsent. simpl; tauto.
Qed.

Lemma delete_removes_exactly_witness :
  handleDeleteClient "unknownId" Demo.roster3 = Demo.roster3.
Proof.
  apply (proj2 (proj2 (proj2 (proj2
    (delete_removes_exactly Demo.roster3 "unknownId"))))).
  intros c Hc. simpl in Hc.
  repeat (destruct Hc as [<- | Hc]; [simpl; discriminate|]). contradiction.
Defined.

(** Two records under one id go together; the others stay as they were. *)
Example delete_duplicates :
  handleDeleteClient "b"
    (Demo.roster3 ++ [Demo.client "b" "Bea" 5; Demo.client "d" "Di" 7])%list
  = [Demo.client "a" "Ann" 10; Demo.client "c" "Cy" 960;
     Demo.client "d" "Di" 7].
Proof. reflexivity. Qed.

(* ================================================================== *)
(** ** Printing an integer and reading it back *)
(* ================================================================== *)

Lemma parseDigits_decimal_acc (d : Decimal.uint) (a : Z) :
  parseDigits 10 (NilEmpty.string_of_uint d) (Some a) =
  Some (decimalValue d a).
Proof.
  revert a. induction d; intros a; [reflexivity | cbn; apply IHd ..].
Qed.

Lemma parseDigits_decimal (d : Decimal.uint) :
  d <> Decimal.Nil ->
  parseDigits 10 (NilEmpty.string_of_uint d) None = Some (decimalValue d 0).
Proof.
  destruct d; intros Hd; [congruence | cbn; apply parseDigits_decimal_acc ..].
Qed.

Lemma decimalValue_pos (d : Decimal.uint) (acc : positive) :
  decimalValue d (Z.pos acc) = Z.pos (Pos.of_uint_acc d acc).
Proof.
  revert acc. induction d; intros acc;
    cbn [decimalValue Pos.of_uint_acc]; [reflexivity | ..].
  all: rewrite <- IHd; f_equal; lia.
Qed.

Lemma decimalValue_of_uint (d : Decimal.uint) :
  decimalValue d 0 = Z.of_uint d.
Proof.
  unfold Z.of_uint.
  induction d; cbn [decimalValue Pos.of_uint Z.of_N];
    [reflexivity | exact IHd | ..].
  all: apply (decimalValue_pos d).
Qed.

(** A digit string is read back by [parseInt] as the number it writes, with
    or without a minus sign in front: its first code unit is no white space
    and its second no [x]. *)
Lemma parseInt_decimal (d : Decimal.uint) :
  d <> Decimal.Nil ->
  parseInt (NilEmpty.string_of_uint d) = Some (Z.of_uint d) /\
  parseInt (String "-" (NilEmpty.string_of_uint d)) = Some (- Z.of_uint d).
Proof.
  intros Hd. rewrite <- decimalValue_of_uint.
  pose proof (parseDigits_decimal d Hd) as H.
  destruct d as [|d|d|d|d|d|d|d|d|d|d]; [congruence | ..].
  all: destruct d; unfold parseInt; cbn -[parseDigits Z.mul];
    cbn -[parseDigits Z.mul] in H; rewrite H; split; f_equal; lia.
Qed.

Lemma parseInt_numberToString (z : Z) :
  parseInt (numberToString z) = Some z.
Proof.
  unfold numberToString.
  rewrite <- (DecimalZ.of_to z) at 2.
  destruct z as [|p|p]; simpl Z.to_int.
  - reflexivity.
  - apply (parseInt_decimal (Pos.to_uint p)), Unsigned.to_uint_nonnil.
  - apply (parseInt_decimal (Pos.to_uint p)), Unsigned.to_uint_nonnil.
Qed.

Lemma allDigits_decimal (d : Decimal.uint) :
  allDigits (NilEmpty.string_of_uint d) = true.
Proof. induction d; [reflexivity | cbn; exact IHd ..]. Qed.



(* ================================================================== *)
(** ** C9: the exported text *)
(* ================================================================== *)

Lemma append_empty_right (s : string) : s ++ "" = s.
Proof. induction s as [|c s IH]; simpl; [reflexivity | now rewrite IH]. Qed.

Lemma join_cons_lines (sep first : string) (rest : list string) :
  join sep (first :: rest) =
  first ++ fold_right (fun l acc => sep ++ l ++ acc) "" rest.
Proof.
  revert first. induction rest as [|l rest IH]; intros first.
  - simpl. now rewrite append_empty_right.
  - change (join sep (first :: l :: rest))
      with (first ++ sep ++ join sep (l :: rest)).
    rewrite IH. reflexivity.
Qed.



(** A comma inside a name goes out as it is: the second line has six
    commas. *)
Example export_keeps_commas :
  handleExport (P := Demo.platform) Demo.roster3 =
    "Name,Assigned Clinician,Assigned Date,Units Used,Status,Last Updated"
    ++ newline ++ "Ann,Dr. Smith,3/20/2024,10,New Authorization,1/5/2024"
    ++ newline ++ "Bob, Jr.,Dr. Smith,3/20/2024,20,New Authorization,1/5/2024"
    ++ newline ++ "Cy,Dr. Smith,3/20/2024,960,New Authorization,1/5/2024".
Proof. reflexivity. Qed.

(* ================================================================== *)
(** ** C6: import followed by export *)
(* ================================================================== *)

(** C6, as stated, fails: a batch in which every row is valid need not come
    back with its units texts.  The units text "960.9" of
    [Demo.rowFraction] is exported as "960". *)
Lemma import_export_units_counterexample :
  ~ (forall data : list CSVRow,
       forallb (rowValid (P := Demo.platform)) data = true ->
       map (fun c => numberToString (unitsUsed c))
         (preview (parseCSV (P := Demo.platform) data)) =
       map (fun row => toString (resolved FUnitsUsed row)) data).
Proof.
  intros H. specialize (H [Demo.rowFraction] eq_refl).
  vm_compute in H. discriminate.
Qed.

Section RoundTrip.
Context {P : Platform}.

(** The platform reads an ISO timestamp it has written back to the same
    time value. *)
Hypothesis iso_roundtrip : forall t : Time, parseDate (toISOString t) = Some t.

Lemma exportRow_newClient (row : CSVRow) (f : Fields) (index : nat) :
  validateRow row = inr f ->
  exportRow (newClient index f) = reexportedRow index row.
Proof.
  intros Hv. rewrite validateRow_cascade in Hv.
  pass_check (columnsResolved row) Hv.
  pass_check (fieldsPresent row) Hv.
  pass_check (unitsValid row) Hv.
  pass_check (statusValid row) Hv.
  unfold reexportedRow, reexportedUnits.
  destruct (parseDate (toString (resolved FAssignedDate row))) as [t|];
    [|discriminate].
  destruct (parseInt (toString (resolved FUnitsUsed row))) as [u|];
    [|discriminate].
  injection Hv as <-.
  unfold exportRow, newClient, localeDate. simpl.
  now rewrite !iso_roundtrip.
Qed.

Lemma exportRow_clientsFrom (data : list CSVRow) (index : nat) :
  forallb rowValid data = true ->
  map exportRow (clientsFrom index data) = mapFrom reexportedRow index data.
Proof.
  revert index. induction data as [|row rest IH]; intros index Hall;
    [reflexivity|].
  simpl in Hall. apply andb_prop in Hall. destruct Hall as [Hrow Hrest].
  unfold rowValid in Hrow. simpl.
  destruct (validateRow row) as [k|f] eqn:Hv; [discriminate|].
  simpl. rewrite (exportRow_newClient row f index Hv). f_equal.
  now apply IH.
Qed.

End RoundTrip.

(** C6, amended.  On a platform that reads its own ISO timestamps back, for
    every CSV input in which all rows are valid, importing and then
    exporting yields, after the header, exactly one line per input row in
    the original row order, whose name, clinician and status cells are the
    row's cell texts after trimming, whose units cell is the decimal
    rendering of the integer [parseInt] reads from the trimmed units text
    (the text itself whenever it is the decimal rendering of an integer),
    and whose assignedDate cell is the locale date of the very time value
    the trimmed input date text parses to (the time of day is not
    printed). *)
Theorem import_export_roundtrip {P : Platform} (data : list CSVRow) :
  (forall t : Time, parseDate (toISOString t) = Some t) ->
  forallb rowValid data = true ->
  map exportRow (preview (parseCSV data)) = mapFrom reexportedRow 0 data
  /\
  handleExport (preview (parseCSV data)) =
    join newline
      (map (join ",") (exportHeader :: mapFrom reexportedRow 0 data))
  /\
  (forall f row key raw,
     findMatchingHeader (expectedHeaders f) row = Some key ->
     get row key = Some raw ->
     toString (resolved f row) = trim raw)
  /\
  (forall row u,
     toString (resolved FUnitsUsed row) = numberToString u ->
     reexportedUnits row = toString (resolved FUnitsUsed row)).
Proof.
  intros Hiso Hall.
  assert (Hrows : map exportRow (preview (parseCSV data)) =
                  mapFrom reexportedRow 0 data).
  { rewrite parseCSV_outcome.
    destruct (errorsFrom 0 data) as [|e es] eqn:E.
    - simpl. now apply exportRow_clientsFrom.
    - apply (errorsFrom_nil_iff data 0) in Hall. congruence. }
  split; [exact Hrows|]. split; [|split].
  - unfold handleExport. now rewrite Hrows.
  - intros f row key raw Hk Hraw. unfold resolved, cell.
    now rewrite Hk, Hraw.
  - intros row u Hu. unfold reexportedUnits.
    now rewrite Hu, parseInt_numberToString.
Qed.

Lemma import_export_roundtrip_witness :
  handleExport (P := Demo.platform)
    (preview (parseCSV (P := Demo.platform)
               [Demo.rowJane; Demo.rowFraction; Demo.rowJohn])) =
  join newline
    (map (join ",")
       (exportHeader ::
        mapFrom (reexportedRow (P := Demo.platform)) 0
          [Demo.rowJane; Demo.rowFraction; Demo.rowJohn])).
Proof.
  refine (proj1 (proj2 (import_export_roundtrip (P := Demo.platform)
                   [Demo.rowJane; Demo.rowFraction; Demo.rowJohn] _ _))).
  - intros []; reflexivity.
  - reflexivity.
Defined.

(** The three rows above as they come back: trimmed, "960.9" as "960". *)
Example import_export_demo :
  handleExport (P := Demo.platform)
    (preview (parseCSV (P := Demo.platform)
               [Demo.rowJane; Demo.rowFraction; Demo.rowJohn])) =
    "Name,Assigned Clinician,Assigned Date,Units Used,Status,Last Updated"
    ++ newline ++ "Jane,Dr. X,1/5/2024,100,Newly Assigned,3/20/2024"
    ++ newline ++ "Jane,Dr. X,1/5/2024,960,Newly Assigned,3/20/2024"
    ++ newline ++ "John Doe,Dr. Smith,3/20/2024,120,New Authorization,3/20/2024".
Proof. reflexivity. Qed.
(* ================================================================== *)
(** ** Lemmas on the string built-ins *)
(* ================================================================== *)

Lemma append_assoc_string (a b c : string) : (a ++ b) ++ c = a ++ b ++ c.
Proof. induction a as [|x a IH]; simpl; [reflexivity | now rewrite IH]. Qed.

Lemma trimStart_fixed (s : string) : trimStart (trimStart s) = trimStart s.
Proof.
  induction s as [|c s IH]; simpl; [reflexivity|].
  destruct (isWhiteSpace c) eqn:E; [exact IH|]. simpl. now rewrite E.
Qed.

Lemma trimEnd_fixed (s : string) : trimEnd (trimEnd s) = trimEnd s.
Proof.
  induction s as [|c s IH]; [reflexivity|].
  cbn [trimEnd]. destruct (trimEnd s) as [|a r] eqn:E.
  - destruct (isWhiteSpace c) eqn:Ec; [reflexivity|].
    cbn [trimEnd]. now rewrite Ec.
  - cbn [trimEnd]. cbn [trimEnd] in IH.
    change (match trimEnd r with
            | "" => if isWhiteSpace a then "" else String a ""
            | String _ _ => String a (trimEnd r)
            end) with (trimEnd (String a r)) in *.
    now rewrite IH.
Qed.

Lemma trimStart_length (s : string) :
  (String.length (trimStart s) <= String.length s)%nat.
Proof.
  induction s as [|c s IH]; simpl; [lia|].
  destruct (isWhiteSpace c); simpl; lia.
Qed.

(** Trimming the end of a string that has no white space in front leaves
    none in front. *)
Lemma trimStart_trimEnd (s : string) :
  trimStart s = s -> trimStart (trimEnd s) = trimEnd s.
Proof.
  destruct s as [|c r]; [reflexivity|].
  cbn [trimStart]. destruct (isWhiteSpace c) eqn:Ec.
  - intros H. pose proof (trimStart_length r) as Hl.
    rewrite H in Hl. simpl in Hl. lia.
  - intros _. cbn [trimEnd].
    destruct (trimEnd r); rewrite ?Ec; cbn [trimStart]; now rewrite Ec.
Qed.

Lemma trim_fixed (s : string) : trim (trim s) = trim s.
Proof.
  unfold trim.
  rewrite (trimStart_trimEnd (trimStart s) (trimStart_fixed s)).
  apply trimEnd_fixed.
Qed.

Lemma trim_clean (s : string) : hasWhiteSpace s = false -> trim s = s.
Proof.
  intros H. unfold trim.
  assert (Hs : trimStart s = s).
  { destruct s as [|c r]; [reflexivity|]. simpl in *.
    apply orb_false_iff in H. destruct H as [Hc _]. now rewrite Hc. }
  rewrite Hs. clear Hs.
  induction s as [|c r IH]; [reflexivity|].
  simpl in H. apply orb_false_iff in H. destruct H as [Hc Hr].
  cbn [trimEnd]. rewrite (IH Hr), Hc. now destruct r.
Qed.

Lemma trimStart_empty (s : string) :
  trimStart s = "" <-> allWhiteSpace s = true.
Proof.
  induction s as [|c s IH]; simpl; [tauto|].
  destruct (isWhiteSpace c); simpl; [exact IH|].
  split; discriminate.
Qed.

Lemma trimEnd_empty (s : string) :
  trimEnd s = "" <-> allWhiteSpace s = true.
Proof.
  induction s as [|c s IH]; [simpl; tauto|].
  cbn [trimEnd allWhiteSpace].
  destruct (trimEnd s) as [|a r] eqn:E.
  - destruct (isWhiteSpace c); simpl.
    + split; [intros _; now apply IH | reflexivity].
    + split; discriminate.
  - split; [discriminate|]. intros H. apply andb_prop in H.
    destruct H as [_ H]. apply IH in H. discriminate.
Qed.

Lemma allWhiteSpace_trimStart (s : string) :
  allWhiteSpace s = true -> trimStart s = "".
Proof. apply trimStart_empty. Qed.

Lemma trimStart_suffix_blank (s : string) :
  allWhiteSpace (trimStart s) = true -> allWhiteSpace s = true.
Proof.
  induction s as [|c s IH]; simpl; [trivial|].
  destruct (isWhiteSpace c) eqn:E; simpl; [exact IH|].
  now rewrite E.
Qed.

(** A cell is trimmed to nothing exactly when it holds white space only. *)
Lemma trim_empty (s : string) : trim s = "" <-> allWhiteSpace s = true.
Proof.
  unfold trim. rewrite trimEnd_empty. split.
  - apply trimStart_suffix_blank.
  - intros H. apply trimStart_empty in H. now rewrite H.
Qed.

Lemma toLowerCase_append (a b : string) :
  toLowerCase (a ++ b) = toLowerCase a ++ toLowerCase b.
Proof. induction a as [|c a IH]; simpl; [reflexivity | now rewrite IH]. Qed.

Lemma isPrefix_append (p s : string) :
  isPrefix p s = true <-> exists post, s = p ++ post.
Proof.
  revert s. induction p as [|a p IH]; intros s.
  - simpl. split; [intros _; now exists s | reflexivity].
  - destruct s as [|b s]; simpl.
    + split; [discriminate | intros [post H]; discriminate].
    + rewrite andb_true_iff, IH. split.
      * intros [Hab [post ->]]. apply Ascii.eqb_eq in Hab. subst b.
        now exists post.
      * intros [post H]. injection H as -> ->.
        split; [apply Ascii.eqb_refl | now exists post].
Qed.

(** [includes] finds the search text exactly when the string can be cut
    around it. *)
Lemma stringIncludes_append (s search : string) :
  stringIncludes s search = true <->
  exists pre post, s = pre ++ search ++ post.
Proof.
  induction s as [|c s IH].
  - simpl. rewrite orb_false_r, isPrefix_append. split.
    + intros [post H]. now exists "", post.
    + intros [pre [post H]]. destruct pre; [now exists post | discriminate].
  - cbn [stringIncludes]. rewrite orb_true_iff, isPrefix_append, IH. split.
    + intros [[post H] | [pre [post H]]].
      * now exists "", post.
      * exists (String c pre), post. simpl. now rewrite H.
    + intros [pre [post H]]. destruct pre as [|a pre].
      * left. now exists post.
      * right. simpl in H. injection H as _ H. now exists pre, post.
Qed.

(* ================================================================== *)
(** ** Further properties of the importer *)
(* ================================================================== *)

Section ImportFurther.
Context {P : Platform}.

Lemma get_of_key (row : CSVRow) (key : string) :
  In key (keys row) -> exists raw, get row key = Some raw.
Proof.
  induction row as [|[k v] row IH]; simpl; [contradiction|].
  intros [-> | H].
  - rewrite String.eqb_refl. now exists v.
  - destruct (k =? key)%string; [now exists v | now apply IH].
Qed.

(** A truthy resolved value is a non-empty trimmed text. *)
Lemma resolved_truthy (f : LogicalField) (row : CSVRow) :
  truthy (resolved f row) = true ->
  exists s, resolved f row = Some s /\ s <> "" /\ trim s = s.
Proof.
  unfold resolved, cell.
  destruct (findMatchingHeader (expectedHeaders f) row) as [key|];
    [|discriminate].
  destruct (get row key) as [raw|]; [|discriminate].
  simpl. intros H. exists (trim raw). repeat split.
  - intros E. rewrite E in H. discriminate.
  - apply trim_fixed.
Qed.

Lemma fieldsPresent_each (row : CSVRow) (f : LogicalField) :
  fieldsPresent row = true -> truthy (resolved f row) = true.
Proof.
  unfold fieldsPresent. rewrite forallb_forall. intros H. apply H.
  destruct f; simpl; tauto.
Qed.

(** What an accepted row has passed and what it hands on. *)
Lemma accepted_row (row : CSVRow) (f : Fields) :
  validateRow row = inr f ->
  columnsResolved row = true /\ fieldsPresent row = true /\
  f_name f = toString (resolved FName row) /\
  f_clinician f = toString (resolved FClinician row) /\
  parseDate (toString (resolved FAssignedDate row)) = Some (f_date f) /\
  parseInt (toString (resolved FUnitsUsed row)) = Some (f_units f) /\
  0 <= f_units f <= 960 /\
  f_status f = toString (resolved FStatus row) /\
  In (f_status f) CLIENT_STATUSES.
Proof.
  intros Hv. rewrite validateRow_cascade in Hv.
  pass_check (columnsResolved row) Hv.
  pass_check (fieldsPresent row) Hv.
  unfold unitsValid, statusValid in Hv.
  destruct (parseInt (toString (resolved FUnitsUsed row))) as [u|];
    [|discriminate].
  destruct (Z.leb_spec 0 u), (Z.leb_spec u 960);
    cbn [andb negb] in Hv; try discriminate.
  destruct (includes CLIENT_STATUSES (toString (resolved FStatus row))) eqn:Es;
    cbn [negb] in Hv; [|discriminate].
  destruct (parseDate (toString (resolved FAssignedDate row))) as [t|];
    [|discriminate].
  injection Hv as <-.
  cbn [f_name f_clinician f_date f_units f_status].
  repeat split; trivial. now apply includes_In.
Qed.

Lemma In_clientsFrom (data : list CSVRow) (index : nat) (c : Client) :
  In c (clientsFrom index data) ->
  exists i row f,
    nth_error data i = Some row /\ validateRow row = inr f /\
    c = newClient (index + i) f.
Proof.
  revert index. induction data as [|row rest IH]; intros index;
    simpl; [contradiction|].
  destruct (validateRow row) as [k|f] eqn:Hv.
  - intros H. destruct (IH _ H) as (i & r & f & Hn & Hr & ->).
    exists (S i), r, f. repeat split; trivial. f_equal. lia.
  - intros [<- | H].
    + exists 0%nat, row, f. repeat split; trivial. f_equal. lia.
    + destruct (IH _ H) as (i & r & f' & Hn & Hr & ->).
      exists (S i), r, f'. repeat split; trivial. f_equal. lia.
Qed.

Lemma In_preview (data : list CSVRow) (c : Client) :
  In c (preview (parseCSV data)) -> In c (clientsFrom 0 data).
Proof.
  rewrite parseCSV_outcome. destruct (errorsFrom 0 data); simpl; tauto.
Qed.

Lemma clients_errors_length (data : list CSVRow) (index : nat) :
  (List.length (clientsFrom index data) + List.length (errorsFrom index data)
   = List.length data)%nat.
Proof.
  revert index. induction data as [|row rest IH]; intros index; simpl;
    [reflexivity|].
  destruct (validateRow row); simpl; specialize (IH (S index)); lia.
Qed.

Lemma errorMessage_nonempty (index : nat) (k : ErrorKind) :
  errorMessage index k <> "".
Proof. unfold errorMessage. simpl. discriminate. Qed.

Lemma join_nonempty (sep x : string) (l : list string) :
  x <> "" -> join sep (x :: l) <> "".
Proof.
  intros Hx. destruct l as [|y l]; simpl; [exact Hx|].
  destruct x; [contradiction | discriminate].
Qed.

Lemma errorsFrom_all_messages (data : list CSVRow) (index : nat) (e : string) :
  In e (errorsFrom index data) -> e <> "".
Proof.
  revert index. induction data as [|row rest IH]; intros index; simpl;
    [contradiction|].
  destruct (validateRow row) as [k|f]; [|apply IH].
  intros [<- | H]; [apply errorMessage_nonempty | now apply (IH (S index))].
Qed.

End ImportFurther.

(** X1.  Every row is accounted for exactly once: the clients and the
    messages pushed by the traversal add up to the number of rows, and the
    preview holds one client per row when all rows are valid and none
    otherwise; an input without rows gives neither clients nor an error. *)
Theorem import_accounts_for_every_row {P : Platform} (data : list CSVRow) :
  (List.length (fst (forEachRow data 0 ([], []))) +
   List.length (snd (forEachRow data 0 ([], []))) = List.length data)%nat
  /\
  List.length (preview (parseCSV data)) =
    (if forallb rowValid data then List.length data else 0%nat)
  /\
  parseCSV [] = {| preview := []; error := "" |}.
Proof.
  rewrite forEachRow_pushes. simpl fst. simpl snd.
  pose proof (clients_errors_length data 0) as Hlen.
  split; [exact Hlen|]. split; [|reflexivity].
  rewrite parseCSV_outcome.
  destruct (errorsFrom 0 data) as [|e es] eqn:E.
  - pose proof (proj1 (errorsFrom_nil_iff data 0) E) as Hall.
    rewrite Hall. simpl in *. lia.
  - destruct (forallb rowValid data) eqn:Hall; [|reflexivity].
    apply (errorsFrom_nil_iff data 0) in Hall. congruence.
Qed.

(** X2.  The error text is empty exactly when every row is valid, so a
    rejected batch always has something to display; and a rejected row at
    index [i] is reported under the number [i + 1], whatever precedes it. *)
Theorem import_error_text_shown {P : Platform} (data : list CSVRow) :
  (error (parseCSV data) = "" <-> forallb rowValid data = true)
  /\
  (forall i row k,
     nth_error data i = Some row -> validateRow row = inl k ->
     In (errorMessage i k) (snd (forEachRow data 0 ([], [])))).
Proof.
  split.
  - rewrite parseCSV_outcome, <- (errorsFrom_nil_iff data 0).
    destruct (errorsFrom 0 data) as [|e es] eqn:E; simpl.
    + tauto.
    + split; [|discriminate]. intros H. exfalso.
      apply (join_nonempty newline e es); [|exact H].
      apply (errorsFrom_all_messages data 0). rewrite E. simpl; tauto.
  - intros i row k Hn Hv. rewrite forEachRow_pushes. simpl.
    exact (errorsFrom_reports data 0 i row k Hn Hv).
Qed.

(** X3.  Every client staged by the importer satisfies the record model:
    units within [0, 960], one of the six statuses, a name and a clinician
    that are non-empty and carry no white space at either end, an assigned
    date that is the ISO text of a time value, and the id and the stamp
    drawn while its row was visited. *)
Theorem import_stages_wellformed_clients {P : Platform}
    (data : list CSVRow) (c : Client) :
  In c (preview (parseCSV data)) ->
  0 <= unitsUsed c <= 960 /\
  In (status c) CLIENT_STATUSES /\
  name c <> "" /\ trim (name c) = name c /\
  clinician c <> "" /\ trim (clinician c) = clinician c /\
  (exists t, assignedDate c = toISOString t) /\
  (exists i, (i < List.length data)%nat /\ id c = randomUUID i /\
             lastUpdated c = toISOString (now i)).
Proof.
  intros Hin. apply In_preview, In_clientsFrom in Hin.
  destruct Hin as (i & row & f & Hn & Hv & ->).
  destruct (accepted_row row f Hv)
    as (_ & Hf & Hname & Hclin & _ & _ & Hu & _ & Hs).
  destruct (resolved_truthy FName row (fieldsPresent_each row FName Hf))
    as (n & Hn1 & Hn2 & Hn3).
  destruct (resolved_truthy FClinician row
              (fieldsPresent_each row FClinician Hf))
    as (cl & Hc1 & Hc2 & Hc3).
  rewrite Hn1 in Hname. rewrite Hc1 in Hclin. simpl in Hname, Hclin.
  simpl. rewrite Hname, Hclin. repeat split; trivial; try lia.
  - now exists (f_date f).
  - exists i. repeat split. apply nth_error_Some. congruence.
Qed.

Lemma import_stages_wellformed_clients_witness :
  0 <= 100 <= 960 /\ In "Newly Assigned" CLIENT_STATUSES.
Proof.
  pose proof (import_stages_wellformed_clients (P := Demo.platform)
                [Demo.rowJane; Demo.rowJohn]
                {| id := "uuid-0"; name := "Jane"; clinician := "Dr. X";
                   assignedDate := "2024-01-05T00:00:00.000Z";
                   unitsUsed := 100; status := "Newly Assigned";
                   lastUpdated := "2024-03-20T00:00:00.000Z" |}
                (or_introl eq_refl)) as H.
  exact (conj (proj1 H) (proj1 (proj2 H))).
Defined.

Section ImportIds.
Context {P : Platform}.

Lemma clientsFrom_ids_distinct (data : list CSVRow) (index : nat) :
  (forall i j, (index <= i < index + List.length data)%nat ->
               (index <= j < index + List.length data)%nat ->
               randomUUID i = randomUUID j -> i = j) ->
  NoDup (map id (clientsFrom index data)).
Proof.
  revert index. induction data as [|row rest IH]; intros index Hinj;
    [constructor|].
  assert (Hrest : NoDup (map id (clientsFrom (S index) rest))).
  { apply IH. intros i j Hi Hj. apply Hinj; simpl; lia. }
  simpl. destruct (validateRow row) as [k|f]; [exact Hrest|].
  simpl. constructor; [|exact Hrest].
  intros Hin. apply in_map_iff in Hin. destruct Hin as (c & Hid & Hc).
  apply In_clientsFrom in Hc. destruct Hc as (i & r & f' & Hn & _ & ->).
  simpl in Hid.
  assert (Hi : (i < List.length rest)%nat)
    by (apply nth_error_Some; congruence).
  assert (E : (S index + i)%nat = index) by (apply Hinj; simpl; lia || trivial).
  lia.
Qed.

Lemma fieldsPresent_false (row : CSVRow) :
  fieldsPresent row = false <-> exists f, truthy (resolved f row) = false.
Proof.
  split.
  - unfold fieldsPresent, allFields. cbn [forallb]. intros H.
    destruct (truthy (resolved FName row)) eqn:E1; [|now exists FName].
    destruct (truthy (resolved FClinician row)) eqn:E2;
      [|now exists FClinician].
    destruct (truthy (resolved FAssignedDate row)) eqn:E3;
      [|now exists FAssignedDate].
    destruct (truthy (resolved FUnitsUsed row)) eqn:E4;
      [|now exists FUnitsUsed].
    destruct (truthy (resolved FStatus row)) eqn:E5; [|now exists FStatus].
    discriminate.
  - intros [f Hf]. destruct (fieldsPresent row) eqn:E; [|reflexivity].
    rewrite (fieldsPresent_each row f E) in Hf. discriminate.
Qed.

Lemma columnsResolved_each (row : CSVRow) (f : LogicalField) :
  columnsResolved row = true ->
  exists key raw,
    findMatchingHeader (expectedHeaders f) row = Some key /\
    get row key = Some raw /\ resolved f row = Some (trim raw).
Proof.
  unfold columnsResolved. rewrite forallb_forall. intros H.
  assert (Hf : hasColumn f row = true)
    by (apply H; destruct f; simpl; tauto).
  rewrite <- truthy_find in Hf.
  destruct (findMatchingHeader (expectedHeaders f) row) as [key|] eqn:E;
    [|discriminate].
  destruct (find_some_matches f row key E) as [Hin _].
  destruct (get_of_key row key Hin) as [raw Hraw].
  exists key, raw. repeat split; trivial.
  unfold resolved, cell. now rewrite E, Hraw.
Qed.

End ImportIds.

(** X4.  The staged clients carry pairwise distinct ids whenever the ids
    the platform hands out while the rows are visited are pairwise
    distinct. *)
Theorem import_ids_distinct {P : Platform} (data : list CSVRow) :
  (forall i j, (i < List.length data)%nat -> (j < List.length data)%nat ->
               randomUUID i = randomUUID j -> i = j) ->
  NoDup (map id (preview (parseCSV data))).
Proof.
  intros Hinj. rewrite parseCSV_outcome.
  destruct (errorsFrom 0 data); simpl; [|constructor].
  apply clientsFrom_ids_distinct. intros i j Hi Hj. apply Hinj; lia.
Qed.

Lemma import_ids_distinct_witness :
  NoDup (map id (preview (parseCSV (P := Demo.platform)
                            [Demo.rowJane; Demo.rowJohn]))).
Proof.
  apply (import_ids_distinct (P := Demo.platform)).
  intros i j Hi Hj. simpl in Hi, Hj.
  destruct i as [|[|i]], j as [|[|j]]; try lia; try reflexivity;
    intros H; vm_compute in H; discriminate.
Defined.

(** X5.  Pressing Import is all-or-nothing for the roster too: after a
    batch with an invalid row the roster and the dialog (with its error
    text) are as before, after a valid batch the staged clients are appended
    in row order; in both cases the records already in the roster keep their
    places. *)
Theorem import_flow_appends_or_nothing {P : Platform}
    (data : list CSVRow) (clients : list Client) :
  snd (importFlow data clients) =
    (if forallb rowValid data
     then (clients ++ preview (parseCSV data))%list else clients)
  /\
  List.length (snd (importFlow data clients)) =
    (List.length clients +
     (if forallb rowValid data then List.length data else 0))%nat
  /\
  (forallb rowValid data = false ->
   importFlow data clients = (parseCSV data, clients))
  /\
  firstn (List.length clients) (snd (importFlow data clients)) = clients.
Proof.
  assert (Hbad : forallb rowValid data = false ->
                 preview (parseCSV data) = []).
  { intros H. rewrite parseCSV_outcome.
    destruct (errorsFrom 0 data) as [|e es] eqn:E; [|reflexivity].
    apply (errorsFrom_nil_iff data 0) in E. congruence. }
  assert (Hlen : forallb rowValid data = true ->
                 List.length (preview (parseCSV data)) = List.length data).
  { intros H. rewrite parseCSV_outcome.
    pose proof (clients_errors_length data 0) as Hl.
    destruct (errorsFrom 0 data) as [|e es] eqn:E.
    - simpl in *. lia.
    - apply (errorsFrom_nil_iff data 0) in H. congruence. }
  assert (Hsnd : snd (importFlow data clients) =
                 (clients ++ preview (parseCSV data))%list).
  { unfold importFlow, handleImport, handleImportClients.
    destruct (preview (parseCSV data)) as [|c l]; simpl;
      [now rewrite app_nil_r | reflexivity]. }
  split; [|split; [|split]].
  - rewrite Hsnd. destruct (forallb rowValid data) eqn:E; [reflexivity|].
    rewrite (Hbad eq_refl). apply app_nil_r.
  - rewrite Hsnd, length_app.
    destruct (forallb rowValid data) eqn:E.
    + now rewrite (Hlen eq_refl).
    + now rewrite (Hbad eq_refl).
  - intros H. unfold importFlow, handleImport. now rewrite (Hbad H).
  - rewrite Hsnd. rewrite firstn_app, firstn_all, Nat.sub_diag. simpl.
    apply app_nil_r.
Qed.

Lemma import_flow_appends_or_nothing_witness :
  importFlow (P := Demo.platform) [Demo.rowJane; Demo.rowJane1000]
    Demo.roster3 =
  ({| preview := [];
      error := "Row 2: Invalid units (must be between 0-960)" |},
   Demo.roster3).
Proof.
  exact (proj1 (proj2 (proj2
    (import_flow_appends_or_nothing (P := Demo.platform)
       [Demo.rowJane; Demo.rowJane1000] Demo.roster3))) eq_refl).
Defined.

(** X6.  The import keeps the invariants of the roster: if every record
    has its units within [0, 960], so has every record after any import,
    and likewise for the status being one of the six. *)
Theorem import_flow_keeps_invariants {P : Platform}
    (data : list CSVRow) (clients : list Client) :
  (unitsInvariant clients ->
   unitsInvariant (snd (importFlow data clients)))
  /\
  (statusInvariant clients ->
   statusInvariant (snd (importFlow data clients))).
Proof.
  assert (Hsnd : snd (importFlow data clients) =
                 (clients ++ preview (parseCSV data))%list).
  { unfold importFlow, handleImport, handleImportClients.
    destruct (preview (parseCSV data)) as [|c l]; simpl;
      [now rewrite app_nil_r | reflexivity]. }
  assert (Hstaged : forall c, In c (preview (parseCSV data)) ->
            0 <= unitsUsed c <= 960 /\ In (status c) CLIENT_STATUSES).
  { intros c Hc. apply In_preview, In_clientsFrom in Hc.
    destruct Hc as (i & row & f & _ & Hv & ->).
    destruct (accepted_row row f Hv) as (_ & _ & _ & _ & _ & _ & Hu & _ & Hs).
    simpl. split; [lia | exact Hs]. }
  unfold unitsInvariant, statusInvariant. rewrite Hsnd.
  split; intros H; apply Forall_app; (split; [exact H|]);
    apply Forall_forall; intros c Hc; apply (Hstaged c Hc).
Qed.

Lemma import_flow_keeps_invariants_witness :
  unitsInvariant
    (snd (importFlow (P := Demo.platform) [Demo.rowJane; Demo.rowFraction]
            Demo.roster3)).
Proof.
  apply (proj1 (import_flow_keeps_invariants (P := Demo.platform)
                  [Demo.rowJane; Demo.rowFraction] Demo.roster3)).
  unfold unitsInvariant, Demo.roster3. repeat constructor; simpl; lia.
Defined.

(** X7.  When several keys of a row match the aliases of a field, the
    first key in key order is the one used: every key before the header
    found fails the test. *)
Theorem header_first_match_wins (headers : list string) (row : CSVRow)
    (key : string) :
  findMatchingHeader headers row = Some key ->
  exists before after,
    keys row = (before ++ key :: after)%list /\
    keyMatches headers key = true /\
    forall k, In k before -> keyMatches headers k = false.
Proof.
  unfold findMatchingHeader, JS.find.
  induction (keys row) as [|k ks IH]; simpl; [discriminate|].
  destruct (keyMatches headers k) eqn:E.
  - intros H. injection H as <-. exists [], ks. simpl. tauto.
  - intros H. destruct (IH H) as (before & after & -> & Hm & Hb).
    exists (k :: before), after. repeat split; trivial.
    intros k' [<- | Hk]; [exact E | now apply Hb].
Qed.

Lemma header_first_match_wins_witness :
  exists before after,
    keys [("Id", "7"); ("Client", "Acme"); ("Name", "Jane")] =
      (before ++ "Client" :: after)%list /\
    keyMatches EXPECTED_HEADERS.name "Client" = true /\
    forall k, In k before -> keyMatches EXPECTED_HEADERS.name k = false.
Proof.
  exact (header_first_match_wins EXPECTED_HEADERS.name
           [("Id", "7"); ("Client", "Acme"); ("Name", "Jane")] "Client"
           eq_refl).
Defined.

(** X8.  A cell that holds white space only counts as missing: a row whose
    five columns are found is rejected with MissingFields exactly when the
    cell under one of the headers found consists of white space (or of
    nothing). *)
Theorem import_blank_cell_is_missing {P : Platform} (row : CSVRow) :
  columnsResolved row = true ->
  (validateRow row = inl MissingFields <->
   exists f key raw,
     findMatchingHeader (expectedHeaders f) row = Some key /\
     get row key = Some raw /\ allWhiteSpace raw = true).
Proof.
  intros Hc.
  assert (Hmf : validateRow row = inl MissingFields <->
                fieldsPresent row = false).
  { rewrite validateRow_cascade, Hc. cbn [negb].
    destruct (fieldsPresent row); cbn [negb]; [|tauto].
    split; [|discriminate].
    destruct (unitsValid row); cbn [negb]; [|discriminate].
    destruct (statusValid row); cbn [negb]; [|discriminate].
    destruct (parseDate _); [destruct (parseInt _)|]; discriminate. }
  rewrite Hmf, fieldsPresent_false. split.
  - intros [f Hf].
    destruct (columnsResolved_each row f Hc) as (key & raw & Hk & Hraw & Hr).
    exists f, key, raw. repeat split; trivial.
    rewrite Hr in Hf. simpl in Hf. apply trim_empty.
    destruct (String.eqb_spec (trim raw) ""); [assumption | discriminate].
  - intros (f & key & raw & Hk & Hraw & Hb). exists f.
    unfold resolved, cell. rewrite Hk, Hraw. simpl.
    apply trim_empty in Hb. now rewrite Hb.
Qed.

Lemma import_blank_cell_is_missing_witness :
  validateRow (P := Demo.platform)
    (Demo.mkRow "Jane" "   " "2024-01-05" "100" "Newly Assigned")
  = inl MissingFields.
Proof.
  apply (import_blank_cell_is_missing (P := Demo.platform)
           (Demo.mkRow "Jane" "   " "2024-01-05" "100" "Newly Assigned")
           eq_refl).
  exists FClinician, "Assigned Clinician", "   ". repeat split.
Defined.

(* ================================================================== *)
(** ** Further properties of the export *)
(* ================================================================== *)

Lemma hasWhiteSpace_decimal (d : Decimal.uint) :
  hasWhiteSpace (NilEmpty.string_of_uint d) = false.
Proof. induction d; [reflexivity | cbn; exact IHd ..]. Qed.

Lemma hasWhiteSpace_numberToString (z : Z) :
  hasWhiteSpace (numberToString z) = false.
Proof.
  unfold numberToString. destruct z as [|p|p]; simpl Z.to_int.
  - reflexivity.
  - apply hasWhiteSpace_decimal.
  - cbn. apply hasWhiteSpace_decimal.
Qed.

Lemma status_trimmed (s : string) :
  In s CLIENT_STATUSES -> trim s = s /\ s <> "".
Proof.
  intros H. simpl in H.
  repeat (destruct H as [<- | H]; [split; [reflexivity | discriminate]|]).
  contradiction.
Qed.

Lemma countChar_append (c : ascii) (a b : string) :
  countChar c (a ++ b) = (countChar c a + countChar c b)%nat.
Proof. induction a as [|x a IH]; simpl; [reflexivity | rewrite IH; lia]. Qed.

Lemma countChar_digits (c : ascii) (s : string) :
  digitValue 10 c = None -> allDigits s = true -> countChar c s = 0%nat.
Proof.
  intros Hc. induction s as [|a s IH]; [reflexivity|].
  cbn [allDigits countChar].
  destruct (digitValue 10 a) eqn:Ea; [|discriminate].
  intros H. rewrite (IH H).
  destruct (Ascii.eqb_spec a c) as [E|E]; [|reflexivity].
  subst a. congruence.
Qed.

Lemma countChar_decimal (c : ascii) (d : Decimal.uint) :
  digitValue 10 c = None -> countChar c (NilEmpty.string_of_uint d) = 0%nat.
Proof. intros Hc. apply countChar_digits, allDigits_decimal. exact Hc. Qed.

(** X9.  What the export writes the importer reads back: a row object with
    a client's exported cells under the exported header is accepted, with
    the same units and status and the trimmed name and clinician, provided
    the client has a name and a clinician that are not blank, units within
    [0, 960], one of the six statuses, and an assigned date whose printed
    form the platform parses.  The Last Updated column plays no part. *)
Theorem export_reimport {P : Platform} (client : Client) (t : Time) :
  trim (name client) <> "" ->
  trim (clinician client) <> "" ->
  0 <= unitsUsed client <= 960 ->
  In (status client) CLIENT_STATUSES ->
  trim (localeDate (assignedDate client)) <> "" ->
  parseDate (trim (localeDate (assignedDate client))) = Some t ->
  validateRow (exportedRowObject client) =
  inr (mkFields (trim (name client)) (trim (clinician client)) t
         (unitsUsed client) (status client)).
Proof.
  intros Hn Hc Hu Hs Hd Hp.
  destruct (status_trimmed _ Hs) as [Hst Hsne].
  pose proof (trim_clean _ (hasWhiteSpace_numberToString (unitsUsed client)))
    as Hut.
  assert (Hune : numberToString (unitsUsed client) <> "").
  { intros E. pose proof (parseInt_numberToString (unitsUsed client)) as H.
    rewrite E in H. discriminate. }
  assert (R1 : resolved FName (exportedRowObject client)
               = Some (trim (name client))) by reflexivity.
  assert (R2 : resolved FClinician (exportedRowObject client)
               = Some (trim (clinician client))) by reflexivity.
  assert (R3 : resolved FAssignedDate (exportedRowObject client)
               = Some (trim (localeDate (assignedDate client))))
    by reflexivity.
  assert (R4 : resolved FUnitsUsed (exportedRowObject client)
               = Some (numberToString (unitsUsed client)))
    by (rewrite <- Hut; reflexivity).
  assert (R5 : resolved FStatus (exportedRowObject client)
               = Some (status client))
    by (rewrite <- Hst; reflexivity).
  assert (Hcols : columnsResolved (exportedRowObject client) = true)
    by reflexivity.
  assert (Hfields : fieldsPresent (exportedRowObject client) = true).
  { unfold fieldsPresent, allFields. cbn [forallb].
    rewrite R1, R2, R3, R4, R5. cbn [truthy].
    apply String.eqb_neq in Hn, Hc, Hd, Hune, Hsne.
    now rewrite Hn, Hc, Hd, Hune, Hsne. }
  rewrite validateRow_cascade, Hcols, Hfields.
  unfold unitsValid, statusValid. rewrite R1, R2, R3, R4, R5.
  cbn [toString negb]. rewrite parseInt_numberToString, Hp.
  destruct (Z.leb_spec 0 (unitsUsed client)); [|lia].
  destruct (Z.leb_spec (unitsUsed client) 960); [|lia].
  cbn [andb negb].
  now rewrite (proj2 (includes_In CLIENT_STATUSES (status client)) Hs).
Qed.

Lemma export_reimport_witness :
  validateRow (P := Demo.localePlatform)
    (exportedRowObject (P := Demo.localePlatform)
       (Demo.client "b" " Bob " 20)) =
  inr (mkFields (P := Demo.localePlatform)
         "Bob" "Dr. Smith" Demo.Mar20 20 "New Authorization").
Proof.
  apply (export_reimport (P := Demo.localePlatform)
           (Demo.client "b" " Bob " 20) Demo.Mar20).
  - discriminate.
  - discriminate.
  - simpl. lia.
  - simpl. tauto.
  - discriminate.
  - reflexivity.
Defined.

Lemma newline_count_lines (lines : list string) :
  countChar "010"
    (fold_right (fun l acc => newline ++ l ++ acc) "" lines) =
  (List.length lines + list_sum (map (countChar "010") lines))%nat.
Proof.
  induction lines as [|l ls IH]; [reflexivity|].
  unfold list_sum in *. cbn [fold_right List.length map].
  rewrite !countChar_append, IH.
  change (countChar "010" newline) with 1%nat. lia.
Qed.

(** X10.  The export adds its separators and escapes none: an exported
    line holds five commas plus the commas of its name, clinician, status
    and two date cells (the units add none), so a comma in a cell shifts the
    columns; and the text holds one line feed per client plus the line
    feeds inside the lines. *)
Theorem export_escapes_nothing {P : Platform} (clients : list Client) :
  (forall client,
     countChar "," (join "," (exportRow client)) =
     (5 + (countChar "," (name client) + countChar "," (clinician client) +
           countChar "," (localeDate (assignedDate client)) +
           countChar "," (status client) +
           countChar "," (localeDate (lastUpdated client))))%nat)
  /\
  countChar "010" (handleExport clients) =
    (List.length clients +
     list_sum (map (fun client =>
                      countChar "010" (join "," (exportRow client)))
                 clients))%nat.
Proof.
  split.
  - intros client. unfold exportRow. cbn [join].
    rewrite !countChar_append.
    assert (Hu : countChar "," (numberToString (unitsUsed client)) = 0%nat).
    { unfold numberToString.
      destruct (unitsUsed client) as [|p|p]; simpl Z.to_int;
        [reflexivity | |]; cbn; now apply countChar_decimal. }
    rewrite Hu. simpl. lia.
  - unfold handleExport. rewrite map_cons, join_cons_lines.
    rewrite countChar_append, newline_count_lines.
    rewrite !length_map, !map_map.
    change (countChar "010" (join "," exportHeader)) with 0%nat.
    reflexivity.
Qed.

(* ================================================================== *)
(** ** Further properties of the inputs and of the roster handlers *)
(* ================================================================== *)

(** X11.  The units input hands over the typed integer clamped to
    [0, 960]: an integer within the range is handed over as it is, one
    above as 960, one below as 0; and a text [parseInt] cannot read is
    handed over as 0. *)
Theorem units_input_clamps (value : string) (u : Z) :
  unitsInputValue (numberToString u) = Z.max 0 (Z.min 960 u)
  /\
  (0 <= u <= 960 -> unitsInputValue (numberToString u) = u)
  /\
  (parseInt value = None -> unitsInputValue value = 0).
Proof.
  assert (H : unitsInputValue (numberToString u) = Z.max 0 (Z.min 960 u)).
  { unfold unitsInputValue. rewrite parseInt_numberToString.
    destruct (Z.eqb_spec u 0); [subst u; reflexivity | reflexivity]. }
  split; [exact H|]. split.
  - intros Hu. rewrite H. lia.
  - intros Hn. unfold unitsInputValue. now rewrite Hn.
Qed.

Lemma units_input_clamps_witness :
  unitsInputValue (numberToString 120) = 120 /\ unitsInputValue "abc" = 0.
Proof.
  split.
  - apply (proj1 (proj2 (units_input_clamps "abc" 120))). lia.
  - apply (proj2 (proj2 (units_input_clamps "abc" 120))). reflexivity.
Defined.

Section FormLemmas.
Context {P : Platform}.

Lemma form_units_range (events : list AddClientModal.FormEvent)
    (formData : AddClientModal.FormData) :
  0 <= AddClientModal.unitsUsed formData <= 960 ->
  0 <= AddClientModal.unitsUsed
         (fold_left AddClientModal.onChange events formData) <= 960.
Proof.
  revert formData. induction events as [|e events IH]; intros formData H;
    [exact H|].
  simpl. apply IH. destruct e; simpl; trivial.
  apply unitsInputValue_range.
Qed.

Lemma form_status_member (events : list AddClientModal.FormEvent)
    (formData : AddClientModal.FormData) :
  (forall v, In (AddClientModal.ChangeStatus v) events ->
             In v CLIENT_STATUSES) ->
  In (AddClientModal.status formData) CLIENT_STATUSES ->
  In (AddClientModal.status
        (fold_left AddClientModal.onChange events formData))
     CLIENT_STATUSES.
Proof.
  revert formData. induction events as [|e events IH]; intros formData He H;
    [exact H|].
  cbn [fold_left]. apply IH.
  - intros v Hv. apply He. now right.
  - destruct e; cbn [AddClientModal.onChange AddClientModal.status]; trivial.
    apply He. now left.
Qed.

Lemma delete_absent (id0 : string) (clients : list Client) :
  (forall c, In c clients -> id c <> id0) ->
  handleDeleteClient id0 clients = clients.
Proof.
  unfold handleDeleteClient.
  induction clients as [|c l IH]; intros H; simpl; [reflexivity|].
  destruct (String.eqb_spec (id c) id0) as [E|E]; simpl.
  - exfalso. apply (H c); simpl; tauto.
  - f_equal. apply IH. intros x Hx. apply H. simpl; tauto.
Qed.

Lemma map_mapFrom {A B C : Type} (h : B -> C) (g : nat -> A -> B)
    (k : A -> C) (l : list A) (i : nat) :
  (forall j x, h (g j x) = k x) -> map h (mapFrom g i l) = map k l.
Proof.
  intros H. revert i. induction l as [|x l IH]; intros i; simpl;
    [reflexivity|].
  now rewrite H, IH.
Qed.

Lemma mapFrom_mapFrom {A B C : Type} (f : nat -> B -> C) (g : nat -> A -> B)
    (l : list A) (i : nat) :
  mapFrom f i (mapFrom g i l) = mapFrom (fun j x => f j (g j x)) i l.
Proof.
  revert i. induction l as [|x l IH]; intros i; simpl; [reflexivity|].
  now rewrite IH.
Qed.

End FormLemmas.

(** X12.  Adding through the form keeps the invariants of the roster:
    whatever is typed, the units of the form stay within [0, 960], so a
    roster within the range stays within it; and when every status chosen is
    one of the six options, a roster of canonical statuses stays one.  The
    submitted form is reset. *)
Theorem add_flow_keeps_invariants {P : Platform} (opened : Time)
    (events : list AddClientModal.FormEvent) (today : Time)
    (newId : string) (stamp : Time) (clients : list Client) :
  0 <= AddClientModal.unitsUsed
         (fold_left AddClientModal.onChange events
            (AddClientModal.initialFormData opened)) <= 960
  /\
  (unitsInvariant clients ->
   unitsInvariant (snd (addFlow opened events today newId stamp clients)))
  /\
  ((forall v, In (AddClientModal.ChangeStatus v) events ->
              In v CLIENT_STATUSES) ->
   statusInvariant clients ->
   statusInvariant (snd (addFlow opened events today newId stamp clients)))
  /\
  fst (addFlow opened events today newId stamp clients) =
    AddClientModal.initialFormData today.
Proof.
  assert (Hu : 0 <= AddClientModal.unitsUsed
                      (fold_left AddClientModal.onChange events
                         (AddClientModal.initialFormData opened)) <= 960)
    by (apply form_units_range; simpl; lia).
  split; [exact Hu|]. split; [|split; [|reflexivity]].
  - intros H. unfold unitsInvariant, addFlow, AddClientModal.handleSubmit,
      handleAddClient. cbn [snd]. apply Forall_app. split; [exact H|].
    constructor; [exact Hu | constructor].
  - intros He H. unfold statusInvariant, addFlow,
      AddClientModal.handleSubmit, handleAddClient. cbn [snd].
    apply Forall_app. split; [exact H|].
    constructor; [|constructor]. cbn [status].
    apply form_status_member; [exact He | simpl; tauto].
Qed.

Lemma add_flow_keeps_invariants_witness :
  unitsInvariant
    (snd (addFlow (P := Demo.platform) Demo.Jan5
            [AddClientModal.ChangeName "Dee";
             AddClientModal.ChangeUnitsUsed "5000"]
            Demo.Mar20 "d" Demo.Mar20 Demo.roster3)).
Proof.
  apply (proj1 (proj2 (add_flow_keeps_invariants (P := Demo.platform)
                         Demo.Jan5
                         [AddClientModal.ChangeName "Dee";
                          AddClientModal.ChangeUnitsUsed "5000"]
                         Demo.Mar20 "d" Demo.Mar20 Demo.roster3))).
  unfold unitsInvariant, Demo.roster3. repeat constructor; simpl; lia.
Defined.

(** X13.  Adding appends one record carrying the new id and leaves the
    records before it in place; deleting the new id afterwards gives back
    the roster as it was, provided no record carried that id before (if
    some did, they go too). *)
Theorem add_then_delete {P : Platform} (newId : string) (stamp : Time)
    (data : AddClientModal.FormData) (clients : list Client) :
  List.length (handleAddClient newId stamp data clients) =
    S (List.length clients)
  /\
  firstn (List.length clients) (handleAddClient newId stamp data clients) =
    clients
  /\
  option_map id
    (nth_error (handleAddClient newId stamp data clients)
       (List.length clients)) = Some newId
  /\
  handleDeleteClient newId (handleAddClient newId stamp data clients) =
    handleDeleteClient newId clients
  /\
  ((forall c, In c clients -> id c <> newId) ->
   handleDeleteClient newId (handleAddClient newId stamp data clients) =
     clients).
Proof.
  assert (Hdel : handleDeleteClient newId
                   (handleAddClient newId stamp data clients) =
                 handleDeleteClient newId clients).
  { unfold handleDeleteClient, handleAddClient. rewrite filter_app.
    cbn [filter id]. rewrite String.eqb_refl. apply app_nil_r. }
  unfold handleAddClient at 1 2 3.
  split; [|split; [|split; [|split]]].
  - rewrite length_app. simpl. lia.
  - rewrite firstn_app, firstn_all, Nat.sub_diag. apply app_nil_r.
  - rewrite nth_error_app2, Nat.sub_diag by lia. reflexivity.
  - exact Hdel.
  - intros H. rewrite Hdel. now apply delete_absent.
Qed.

Lemma add_then_delete_witness :
  handleDeleteClient "d"
    (handleAddClient (P := Demo.platform) "d" Demo.Mar20
       (AddClientModal.initialFormData (P := Demo.platform) Demo.Mar20)
       Demo.roster3) = Demo.roster3.
Proof.
  apply (proj2 (proj2 (proj2 (proj2
    (add_then_delete (P := Demo.platform) "d" Demo.Mar20
       (AddClientModal.initialFormData (P := Demo.platform) Demo.Mar20)
       Demo.roster3))))).
  intros c Hc. simpl in Hc.
  repeat (destruct Hc as [<- | Hc]; [simpl; discriminate|]). contradiction.
Defined.

(** X14.  An update touches nothing but its field and the stamp: after a
    unit update every record keeps its id, name, clinician, assigned date
    and status, after a status update its id, name, clinician, assigned date
    and units, each at its place.  So a status update keeps the units
    invariant; every record with the id receives the new status and every
    other record is a record of the old roster; and a status that is one of
    the six keeps the status invariant. *)
Theorem update_touches_one_field {P : Platform} (id0 : string) (units : Z)
    (status0 : ClientStatus) (clients : list Client) :
  map (fun c => (id c, name c, clinician c, assignedDate c, status c))
      (handleUnitsChange id0 units clients) =
  map (fun c => (id c, name c, clinician c, assignedDate c, status c))
      clients
  /\
  map (fun c => (id c, name c, clinician c, assignedDate c, unitsUsed c))
      (handleStatusChange id0 status0 clients) =
  map (fun c => (id c, name c, clinician c, assignedDate c, unitsUsed c))
      clients
  /\
  (unitsInvariant clients ->
   unitsInvariant (handleStatusChange id0 status0 clients))
  /\
  (forall c, In c (handleStatusChange id0 status0 clients) ->
     (id c = id0 -> status c = status0) /\
     (id c <> id0 -> In c clients))
  /\
  (In status0 CLIENT_STATUSES -> statusInvariant clients ->
   statusInvariant (handleStatusChange id0 status0 clients)).
Proof.
  split; [|split; [|split; [|split]]].
  - unfold handleUnitsChange. apply map_mapFrom. intros j x.
    now destruct (id x =? id0)%string.
  - unfold handleStatusChange. apply map_mapFrom. intros j x.
    now destruct (id x =? id0)%string.
  - intros H. unfold unitsInvariant, handleStatusChange in *.
    rewrite Forall_forall in H. apply mapFrom_Forall. intros j x Hx.
    destruct (id x =? id0)%string; simpl; now apply H.
  - intros c Hc. unfold handleStatusChange in Hc.
    apply mapFrom_In in Hc. destruct Hc as [j [x [Hx ->]]].
    destruct (String.eqb_spec (id x) id0) as [E|E]; simpl.
    + split; [reflexivity | intros Hn; contradiction].
    + split; [intros He; contradiction | intros _; exact Hx].
  - intros Hs H. unfold statusInvariant, handleStatusChange in *.
    rewrite Forall_forall in H. apply mapFrom_Forall. intros j x Hx.
    destruct (id x =? id0)%string; simpl; [exact Hs | now apply H].
Qed.

Lemma update_touches_one_field_witness :
  unitsInvariant
    (handleStatusChange (P := Demo.platform) "b" "Client Hospitalized"
       Demo.roster3).
Proof.
  apply (proj1 (proj2 (proj2
    (update_touches_one_field (P := Demo.platform) "b" 0
       "Client Hospitalized" Demo.roster3)))).
  unfold unitsInvariant, Demo.roster3. repeat constructor; simpl; lia.
Defined.

(** X15.  Updates compose as writes: of two unit updates for one id the
    later value is the one left in the units, likewise for the status; and a
    unit update and a status update, for any two ids, give the same records
    in either order, the stamps apart. *)
Theorem updates_compose {P : Platform} (id1 id2 : string) (u1 u2 : Z)
    (s1 s2 : ClientStatus) (clients : list Client) :
  map unitsUsed (handleUnitsChange id1 u2 (handleUnitsChange id1 u1 clients))
    = map unitsUsed (handleUnitsChange id1 u2 clients)
  /\
  map status (handleStatusChange id1 s2 (handleStatusChange id1 s1 clients))
    = map status (handleStatusChange id1 s2 clients)
  /\
  map (fun c => (id c, name c, clinician c, assignedDate c, unitsUsed c,
                 status c))
      (handleStatusChange id2 s1 (handleUnitsChange id1 u1 clients)) =
  map (fun c => (id c, name c, clinician c, assignedDate c, unitsUsed c,
                 status c))
      (handleUnitsChange id1 u1 (handleStatusChange id2 s1 clients)).
Proof.
  unfold handleUnitsChange, handleStatusChange.
  rewrite !mapFrom_mapFrom.
  split; [|split].
  - rewrite (map_mapFrom unitsUsed _
               (fun x => if (id x =? id1)%string then u2 else unitsUsed x)),
            (map_mapFrom unitsUsed _
               (fun x => if (id x =? id1)%string then u2 else unitsUsed x));
      trivial; intros j x; destruct (id x =? id1)%string eqn:E; simpl;
      rewrite ?E; reflexivity.
  - rewrite (map_mapFrom status _
               (fun x => if (id x =? id1)%string then s2 else status x)),
            (map_mapFrom status _
               (fun x => if (id x =? id1)%string then s2 else status x));
      trivial; intros j x; destruct (id x =? id1)%string eqn:E; simpl;
      rewrite ?E; reflexivity.
  - rewrite (map_mapFrom _ _
               (fun x => (id x, name x, clinician x, assignedDate x,
                          (if (id x =? id1)%string then u1 else unitsUsed x),
                          (if (id x =? id2)%string then s1 else status x)))),
            (map_mapFrom _ _
               (fun x => (id x, name x, clinician x, assignedDate x,
                          (if (id x =? id1)%string then u1 else unitsUsed x),
                          (if (id x =? id2)%string then s1 else status x))));
      trivial; intros j x;
      destruct (id x =? id1)%string eqn:E1, (id x =? id2)%string eqn:E2;
      simpl; rewrite ?E1, ?E2; reflexivity.
Qed.

(** X16.  Deleting is idempotent, two deletions give the same roster in
    either order, and a deletion keeps every property that holds of all
    records, the two invariants among them, and never lengthens the
    roster. *)
Theorem delete_composes (id1 id2 : string) (clients : list Client) :
  handleDeleteClient id1 (handleDeleteClient id1 clients) =
    handleDeleteClient id1 clients
  /\
  handleDeleteClient id1 (handleDeleteClient id2 clients) =
    handleDeleteClient id2 (handleDeleteClient id1 clients)
  /\
  (forall Q : Client -> Prop,
     Forall Q clients -> Forall Q (handleDeleteClient id1 clients))
  /\
  (List.length (handleDeleteClient id1 clients) <= List.length clients)%nat.
Proof.
  unfold handleDeleteClient. split; [|split; [|split]].
  - induction clients as [|c l IH]; simpl; [reflexivity|].
    destruct (id c =? id1)%string eqn:E; simpl; rewrite ?E; simpl;
      [exact IH | now rewrite IH].
  - induction clients as [|c l IH]; simpl; [reflexivity|].
    destruct (id c =? id1)%string eqn:E1, (id c =? id2)%string eqn:E2;
      simpl; rewrite ?E1, ?E2; simpl; now rewrite IH.
  - intros Q H. rewrite Forall_forall in *. intros c Hc.
    apply filter_In in Hc. now apply H.
  - apply filter_length_le.
Qed.

Lemma delete_composes_witness :
  unitsInvariant (handleDeleteClient "b" Demo.roster3).
Proof.
  apply (proj1 (proj2 (proj2 (delete_composes "b" "c" Demo.roster3)))).
  unfold Demo.roster3. repeat constructor; simpl; lia.
Defined.

(* ================================================================== *)
(** ** Properties of the table: search, sort order, header matching *)
(* ================================================================== *)

Lemma filter_refines {A : Type} (p q : A -> bool) (l : list A) :
  (forall x, p x = true -> q x = true) ->
  filter p (filter q l) = filter p l.
Proof.
  intros H. induction l as [|x l IH]; simpl; [reflexivity|].
  destruct (q x) eqn:Eq; simpl.
  - now rewrite IH.
  - destruct (p x) eqn:Ep; [|exact IH].
    rewrite (H x Ep) in Eq. discriminate.
Qed.

Lemma filter_all {A : Type} (p : A -> bool) (l : list A) :
  (forall x, p x = true) -> filter p l = l.
Proof.
  intros H. induction l as [|x l IH]; simpl; [reflexivity|].
  now rewrite H, IH.
Qed.

Lemma stringIncludes_part (s pre search post : string) :
  stringIncludes s (pre ++ search ++ post) = true ->
  stringIncludes s search = true.
Proof.
  rewrite !stringIncludes_append. intros (a & b & ->).
  exists (a ++ pre), (post ++ b).
  now rewrite !append_assoc_string.
Qed.

(** X17.  The search box keeps exactly the clients whose lowercased name
    can be cut around the lowercased search text, in roster order; the empty
    search keeps everybody, and the case of the search text is of no
    account. *)
Theorem search_keeps_matching_names (search : string)
    (clients : list Client) :
  (forall c, In c (filteredClients search clients) <->
     In c clients /\
     exists pre post,
       toLowerCase (name c) = pre ++ toLowerCase search ++ post)
  /\
  filteredClients "" clients = clients
  /\
  filteredClients (toLowerCase search) clients =
    filteredClients search clients.
Proof.
  unfold filteredClients. split; [|split].
  - intros c. rewrite filter_In, stringIncludes_append. reflexivity.
  - apply filter_all. intros c. simpl. now destruct (toLowerCase (name c)).
  - now rewrite toLowerCase_idempotent.
Qed.

(** X18.  On names and search texts whose code units are all below 256
    (the strings of this embedding, on which lowercasing works one code unit
    at a time), typing more narrows the list: for a search text that
    contains an earlier one, filtering the roster gives what filtering the
    earlier result gives, so no client comes back once it has been filtered
    out.  Nothing is said of other texts: there the built-in lowercasing
    looks at the neighbours of a letter (a capital sigma at the end of a
    word), and a longer search text can bring a client back. *)
Theorem search_narrows (pre search post : string) (clients : list Client) :
  filteredClients (pre ++ search ++ post) clients =
    filteredClients (pre ++ search ++ post) (filteredClients search clients)
  /\
  (forall c, In c (filteredClients (pre ++ search ++ post) clients) ->
             In c (filteredClients search clients)).
Proof.
  assert (H : forall c : Client,
            stringIncludes (toLowerCase (name c))
              (toLowerCase (pre ++ search ++ post)) = true ->
            stringIncludes (toLowerCase (name c)) (toLowerCase search) = true).
  { intros c. rewrite !toLowerCase_append. apply stringIncludes_part. }
  split.
  - unfold filteredClients. symmetry. now apply filter_refines.
  - unfold filteredClients. intros c. rewrite !filter_In.
    intros [Hin Hc]. split; [exact Hin | now apply H].
Qed.

Lemma stringLt_flip (a b : string) : stringLt a b = stringGt b a.
Proof.
  unfold stringLt, stringGt. rewrite String.compare_antisym.
  now destruct (String.compare b a).
Qed.

Lemma stringGt_asym (a b : string) :
  stringGt a b = true -> stringGt b a = false.
Proof.
  unfold stringGt. rewrite String.compare_antisym.
  now destruct (String.compare b a).
Qed.

Lemma fieldLt_flip (k : ClientKey) (a b : Client) :
  fieldLt k a b = fieldGt k b a.
Proof.
  destruct k; simpl; try apply stringLt_flip. now rewrite Z.gtb_ltb.
Qed.

Lemma fieldGt_asym (k : ClientKey) (a b : Client) :
  fieldGt k a b = true -> fieldGt k b a = false.
Proof.
  destruct k; simpl; try apply stringGt_asym.
  rewrite !Z.gtb_ltb. intros H. apply Z.ltb_lt in H. apply Z.ltb_ge. lia.
Qed.

(** X19.  The comparison handed to [sort] never answers 0.  For two
    records that differ in the sort field it is antisymmetric and the
    descending comparison is the ascending one with its arguments swapped;
    for two records that agree in the sort field (a record and itself
    included) it answers -1 in both orders. *)
Theorem sort_comparison_has_no_tie (k : ClientKey) (d : SortDirection)
    (a b : Client) :
  (compareClients k d a b = 1 \/ compareClients k d a b = -1)
  /\
  compareClients k desc a b = compareClients k asc b a
  /\
  (fieldGt k a b = true \/ fieldLt k a b = true ->
   compareClients k d a b = - compareClients k d b a)
  /\
  (fieldGt k a b = false -> fieldLt k a b = false ->
   compareClients k d a b = -1 /\ compareClients k d b a = -1)
  /\
  compareClients k d a a = -1.
Proof.
  assert (Hself : fieldGt k a a = false).
  { destruct (fieldGt k a a) eqn:E; [|reflexivity].
    now rewrite (fieldGt_asym k a a E) in E. }
  unfold compareClients. rewrite !fieldLt_flip, Hself.
  split; [|split; [|split; [|split]]].
  - destruct d, (fieldGt k a b), (fieldGt k b a); tauto.
  - reflexivity.
  - intros [H | H]; pose proof (fieldGt_asym _ _ _ H) as H';
      rewrite H, H'; now destruct d.
  - intros H1 H2. rewrite H1, H2. now destruct d.
  - now destruct d.
Qed.

Lemma sort_comparison_has_no_tie_witness :
  compareClients KName asc (Demo.client "a" "Ann" 10)
    (Demo.client "b" "Bob" 20) =
  - compareClients KName asc (Demo.client "b" "Bob" 20)
      (Demo.client "a" "Ann" 10)
  /\
  compareClients KStatus asc (Demo.client "a" "Ann" 10)
    (Demo.client "b" "Bob" 20) = -1.
Proof.
  split.
  - apply (proj1 (proj2 (proj2
      (sort_comparison_has_no_tie KName asc (Demo.client "a" "Ann" 10)
         (Demo.client "b" "Bob" 20))))).
    right. reflexivity.
  - apply (proj1 (proj2 (proj2 (proj2
      (sort_comparison_has_no_tie KStatus asc (Demo.client "a" "Ann" 10)
         (Demo.client "b" "Bob" 20)))))); reflexivity.
Defined.

Lemma keyEqb_eq (k1 k2 : ClientKey) : keyEqb k1 k2 = true <-> k1 = k2.
Proof. destruct k1, k2; simpl; split; congruence. Qed.

(** X20.  A click on a column header always leaves that column as the
    sort field; on another column than the current one it sorts ascending,
    on the current one it flips the direction, so a second click restores
    the sort state. *)
Theorem sort_click_toggles (field : ClientKey) (st : SortState) :
  sortField (handleSort field st) = field
  /\
  (sortField st <> field -> sortDirection (handleSort field st) = asc)
  /\
  (sortField st = field ->
   sortDirection (handleSort field st) <> sortDirection st /\
   handleSort field (handleSort field st) = st).
Proof.
  destruct st as [f d]. unfold handleSort. cbn [sortField sortDirection].
  destruct (keyEqb field f) eqn:E.
  - apply keyEqb_eq in E. subst f. split; [reflexivity|]. split.
    + intros H. now contradiction H.
    + intros _. cbn [sortField sortDirection].
      rewrite (proj2 (keyEqb_eq field field) eq_refl).
      now destruct d.
  - split; [reflexivity|]. split; [reflexivity|].
    intros H. cbn in H. subst f.
    rewrite (proj2 (keyEqb_eq field field) eq_refl) in E. discriminate.
Qed.

Lemma sort_click_toggles_witness :
  handleSort KName (handleSort KName initialSortState) = initialSortState.
Proof.
  exact (proj2 (proj2 (proj2 (sort_click_toggles KName initialSortState))
                 eq_refl)).
Defined.

Lemma isWhiteSpace_toLowerChar (c : ascii) :
  isWhiteSpace (toLowerChar c) = isWhiteSpace c.
Proof. destruct c as [[] [] [] [] [] [] [] []]; reflexivity. Qed.

Lemma hasWhiteSpace_toLowerCase (s : string) :
  hasWhiteSpace (toLowerCase s) = hasWhiteSpace s.
Proof.
  induction s as [|c s IH]; simpl; [reflexivity|].
  now rewrite isWhiteSpace_toLowerChar, IH.
Qed.

Lemma stripWhiteSpace_toLowerCase (s : string) :
  stripWhiteSpace (toLowerCase s) = toLowerCase (stripWhiteSpace s).
Proof.
  induction s as [|c s IH]; simpl; [reflexivity|].
  rewrite isWhiteSpace_toLowerChar.
  destruct (isWhiteSpace c); simpl; now rewrite IH.
Qed.

Lemma stripWhiteSpace_fixed (s : string) :
  stripWhiteSpace (stripWhiteSpace s) = stripWhiteSpace s.
Proof.
  induction s as [|c s IH]; simpl; [reflexivity|].
  destruct (isWhiteSpace c) eqn:E; simpl; [exact IH|].
  now rewrite E, IH.
Qed.

(** X21.  Header matching does not see the white space of a key, and an
    alias that contains white space is dead: the keys matched by an alias
    list are those matched by its aliases without white space, and no key
    at all is matched by an alias with white space alone. *)
Theorem header_match_spacing (headers : list string) (key : string) :
  keyMatches headers (stripWhiteSpace key) = keyMatches headers key
  /\
  keyMatches headers key =
    keyMatches (filter (fun alias => negb (hasWhiteSpace alias)) headers) key
  /\
  (forall alias, hasWhiteSpace alias = true ->
                 keyMatches [alias] key = false).
Proof.
  assert (Hdead : forall alias, hasWhiteSpace alias = true ->
            (stripWhiteSpace (toLowerCase key) =? toLowerCase alias)%string
            = false).
  { intros alias Ha. apply String.eqb_neq. intros E.
    pose proof (stripWhiteSpace_clean (toLowerCase key)) as Hc.
    rewrite E, hasWhiteSpace_toLowerCase, Ha in Hc. discriminate. }
  split; [|split].
  - unfold keyMatches.
    now rewrite <- stripWhiteSpace_toLowerCase, stripWhiteSpace_fixed.
  - unfold keyMatches, includes.
    induction headers as [|h hs IH]; [reflexivity|].
    cbn [map existsb filter].
    destruct (hasWhiteSpace h) eqn:Eh; cbn [negb].
    + now rewrite (Hdead h Eh).
    + cbn [map existsb]. now rewrite IH.
  - intros alias Ha. unfold keyMatches, includes. cbn [map existsb].
    now rewrite (Hdead alias Ha).
Qed.

Lemma header_match_spacing_witness :
  keyMatches ["assignment date"] "Assignment Date" = false.
Proof.
  exact (proj2 (proj2 (header_match_spacing [] "Assignment Date"))
           "assignment date" eq_refl).
Defined.
